(** * Movie Recommender System: the recommender and the genre browser of app.py

    A shallow embedding of [recommend], [fetch_poster], [fetch_by_genre] and
    the "Show Genre" handler of [src/app.py], with the properties the
    specification states about them.

    Modelling choices, all read off the source:
    - similarity scores are rationals ([Q]); numpy floats other than NaN and
      the infinities are rationals, and [list.sort] compares them with [<];
    - the catalog is a pandas DataFrame kept column by column, with its
      index of integer labels; the labels are the positions [0..N-1] for the
      default index only, and [default_index] says so where a property needs
      it;
    - Python exceptions are values of [exn]; a function that may raise
      returns [exn + A];
    - the metadata service is an oracle ([Service]) answering a request made
      at a given time; [st.cache_data] is a map from arguments to the cached
      value and the time it was stored. *)

From Stdlib Require Import QArith.
From stdpp Require Import base list gmap strings sorting pretty.

Local Open Scope string_scope.
Local Open Scope list_scope.
Local Open Scope nat_scope.

(** ** Constants (app.py, lines 16-20) *)

Definition POSTER_BASE : string := "https://image.tmdb.org/t/p/w500".
Definition TOP_K : nat := 5.

(** ** Python built-ins used by [recommend] *)

(** [enumerate(xs)], counting from [n]. *)
Fixpoint enumerate_from {A : Type} (n : nat) (xs : list A) : list (nat * A) :=
  match xs with
  | [] => []
  | x :: xs' => (n, x) :: enumerate_from (S n) xs'
  end.

Definition enumerate {A : Type} (xs : list A) : list (nat * A) :=
  enumerate_from 0 xs.

(** Python's [a < b] on scores. *)
Definition Qltb (a b : Q) : bool :=
  match (a ?= b)%Q with
  | Lt => true
  | _ => false
  end.

(** [list.sort(key=..., reverse=...)].  The sort is stable and only ever
    asks [key y < key x].  With [reverse=True] CPython reverses the list,
    sorts it in ascending order, and reverses the outcome, which is how
    equal keys keep their original order in a descending sort. *)
Section ListSort.
Context {A : Type} (key : A → Q).

(** [insert_sorted x l]: [x] stood before every element of [l] in the
    input, so it goes in front of the first element that is not smaller. *)
Fixpoint insert_sorted (x : A) (l : list A) : list A :=
  match l with
  | [] => [x]
  | y :: l' =>
      if Qltb (key y) (key x) then y :: insert_sorted x l' else x :: y :: l'
  end.

Fixpoint stable_sort (l : list A) : list A :=
  match l with
  | [] => []
  | x :: l' => insert_sorted x (stable_sort l')
  end.

Definition list_sort (reverse : bool) (l : list A) : list A :=
  if reverse then list.reverse (stable_sort (list.reverse l)) else stable_sort l.
End ListSort.

(** ** The ranking of [recommend] (app.py, lines 117-119)

    [sims = list(enumerate(similarity_matrix[i_sel]))],
    [sims.sort(key=lambda x: x[1], reverse=True)],
    [top_idxs = [i for i, _ in sims if i != i_sel][:TOP_K]].  [i_sel] is
    the integer the caller got from the index of the catalog, [i] a
    position of [enumerate]. *)

Definition sorted_sims (row : list Q) : list (nat * Q) :=
  list_sort snd true (enumerate row).

Definition top_idxs (i_sel : Z) (row : list Q) : list nat :=
  take TOP_K (map fst (filter (λ p : nat * Q, Z.of_nat p.1 ≠ i_sel) (sorted_sims row))).

(** ** Exceptions and the state of the process *)

Inductive exn : Type :=
  | IndexError   (* a position past the end of a list or of the frame *)
  | ValueError   (* [int(...)] of a missing cell *)
  | KeyError     (* a key a dict does not have *)
  | TypeError.   (* an object of another kind than the operation takes *)

(** A field of a JSON object as [dict.get(key, default)] tells it apart. *)
Inductive Field (A : Type) : Type :=
  | Absent
  | JsonNull
  | Value (a : A).
Arguments Absent {A}.
Arguments JsonNull {A}.
Arguments Value {A} a.

(** A movie summary of the discover endpoint.  For the title, the name and
    the poster path [None] is a key that is absent or [null], which
    [dict.get] followed by a truth test treats alike; the identifier is read
    with a default, which tells a missing key from [null]. *)
Record MovieDict : Type := mkMovieDict {
  m_id : Field Z;
  m_title : option string;
  m_name : option string;
  m_poster_path : option string
}.

(** What [SESSION.get(...)], [raise_for_status()] and [r.json()] come to
    once the retries of the session are over: a [requests.RequestException]
    or the decoded body. *)
Inductive HttpResult (A : Type) : Type :=
  | RequestException
  | Json (body : A).
Arguments RequestException {A}.
Arguments Json {A} body.

(** The metadata service: the answer to a request sent at time [t] with
    credential [api_key]. *)
Record Service : Type := mkService {
  (* GET /3/movie/{movie_id}: the [poster_path] of the body *)
  movie_details : nat → string → Z → HttpResult (option string);
  (* GET /3/discover/movie: the [results] of the body *)
  discover_movie : nat → string → Z → Z → HttpResult (Field (list MovieDict))
}.

(** What a run of the script reads and never writes. *)
Record Env : Type := mkEnv {
  TMDB_API_KEY : option string;
  tmdb : Service
}.

(** What lives across calls: the clock (seconds) and the two
    [st.cache_data] stores, each entry with the time it was stored. *)
Record State : Type := mkState {
  now : nat;
  poster_cache : gmap Z (nat * option string);
  genre_cache : gmap (Z * Z) (nat * option (list MovieDict))
}.

Definition init_state : State := mkState 0 ∅ ∅.

Definition tick (d : nat) (st : State) : State :=
  mkState (now st + d) (poster_cache st) (genre_cache st).

(** State and exceptions. *)
Definition M (A : Type) : Type := State → (exn + A) * State.

Definition ret {A : Type} (a : A) : M A := λ st, (inr a, st).

Definition raise {A : Type} (e : exn) : M A := λ st, (inl e, st).

Definition bind {A B : Type} (c : M A) (k : A → M B) : M B :=
  λ st, match c st with
        | (inl e, st') => (inl e, st')
        | (inr a, st') => k a st'
        end.

Definition lift {A : Type} (r : exn + A) : M A :=
  match r with
  | inl e => raise e
  | inr a => ret a
  end.

Notation "'let!' x ':=' c 'in' k" := (bind c (λ x, k))
  (at level 10, x name, c at level 100, k at level 200).

(** Python truth of a string, and [not TMDB_API_KEY]. *)
Definition truthy (s : string) : bool := negb (String.eqb s "").

Definition credential (env : Env) : option string :=
  match TMDB_API_KEY env with
  | Some k => if truthy k then Some k else None
  | None => None
  end.

(** ** [st.cache_data(ttl=...)]: an entry answers until [ttl] seconds after
    it was stored. *)
Definition cache_get {K V : Type} `{Countable K}
    (ttl : nat) (t : nat) (c : gmap K (nat * V)) (k : K) : option V :=
  match c !! k with
  | Some (stored, v) => if decide (t < stored + ttl) then Some v else None
  | None => None
  end.

(** ** [fetch_poster] (app.py, lines 92-106) *)

Definition fetch_poster_body (env : Env) (t : nat) (movie_id : Z) : option string :=
  match credential env with
  | None => None
  | Some key =>
      match movie_details (tmdb env) t key movie_id with
      | RequestException => None
      | Json poster_path =>
          match poster_path with
          | Some p => if truthy p then Some (POSTER_BASE +:+ p) else None
          | None => None
          end
      end
  end.

Definition POSTER_TTL : nat := 24 * 3600.

Definition fetch_poster (env : Env) (movie_id : Z) : M (option string) :=
  λ st,
    match cache_get POSTER_TTL (now st) (poster_cache st) movie_id with
    | Some v => (inr v, st)
    | None =>
        let v := fetch_poster_body env (now st) movie_id in
        (inr v,
         mkState (now st) (<[movie_id := (now st, v)]> (poster_cache st))
                 (genre_cache st))
    end.

(** ** [fetch_by_genre] (app.py, lines 158-181).  The outcome is [None]
    where the Python function returns [None] (a body whose [results] is
    [null]). *)

Definition fetch_by_genre_body (env : Env) (t : nat) (genre_id page : Z)
    : option (list MovieDict) :=
  match credential env with
  | None => Some []
  | Some key =>
      match discover_movie (tmdb env) t key genre_id page with
      | RequestException => Some []
      | Json Absent => Some []
      | Json JsonNull => None
      | Json (Value l) => Some l
      end
  end.

Definition GENRE_TTL : nat := 6 * 3600.

Definition fetch_by_genre (env : Env) (genre_id page : Z)
    : M (option (list MovieDict)) :=
  λ st,
    match cache_get GENRE_TTL (now st) (genre_cache st) (genre_id, page) with
    | Some v => (inr v, st)
    | None =>
        let v := fetch_by_genre_body env (now st) genre_id page in
        (inr v,
         mkState (now st) (poster_cache st)
                 (<[(genre_id, page) := (now st, v)]> (genre_cache st)))
    end.

(** ** The catalog: a pandas DataFrame.

    [index] holds the label of each row, an integer; [pd.DataFrame] of a
    dict of lists numbers the rows [0..N-1], a dict of dicts brings its own
    labels.  Only the columns the program reads are kept.  ["title"] is
    always there (the select box of the page is built from it before
    [recommend] can be called); ["movie_id"] and ["id"] may or may not be. *)
Record DataFrame : Type := mkDataFrame {
  index : list Z;
  col_title : list string;
  col_movie_id : option (list Z);
  col_id : option (list Z)
}.

(** [movies_df.columns], as far as the program asks. *)
Definition columns (df : DataFrame) : list string :=
  ["title"] ++ (if col_movie_id df is Some _ then ["movie_id"] else [])
            ++ (if col_id df is Some _ then ["id"] else []).

(** pandas keeps every column as long as the frame. *)
Definition frame_ok (df : DataFrame) : Prop :=
  (∀ c, col_movie_id df = Some c → length c = length (col_title df)) ∧
  (∀ c, col_id df = Some c → length c = length (col_title df)).

(** A row as [movies_df.iloc[i]] returns it. *)
Record Row : Type := mkRow {
  row_title : string;
  row_movie_id : option Z;
  row_id : option Z
}.

Definition iloc (df : DataFrame) (i : nat) : exn + Row :=
  match col_title df !! i with
  | None => inl IndexError
  | Some t =>
      inr (mkRow t (col_movie_id df ≫= (λ c, c !! i)) (col_id df ≫= (λ c, c !! i)))
  end.

(** [int(row[id_col])] for the two names [id_col] can take. *)
Definition row_int (row : Row) (id_col : string) : exn + Z :=
  let cell := if String.eqb id_col "movie_id" then row_movie_id row else row_id row in
  match cell with
  | Some z => inr z
  | None => inl ValueError
  end.

(** [movies_df.index[movies_df["title"] == selected_title]]: the labels of
    the rows whose title is the selected one, in row order. *)
Definition title_matches (df : DataFrame) (selected_title : string) : list Z :=
  map fst (filter (λ p : Z * string, p.2 = selected_title)
                  (zip (index df) (col_title df))).

(** [xs[i]] for an integer [i]: a negative [i] counts from the end, and a
    position outside the list raises. *)
Definition getitem {A : Type} (xs : list A) (i : Z) : exn + A :=
  let j := if decide (i < 0)%Z then (i + Z.of_nat (length xs))%Z else i in
  if decide (j < 0)%Z then inl IndexError
  else match xs !! Z.to_nat j with
       | Some x => inr x
       | None => inl IndexError
       end.

(** [similarity_matrix[i_sel]]. *)
Definition matrix_row (similarity_matrix : list (list Q)) (i : Z) : exn + list Q :=
  getitem similarity_matrix i.

(** ** [recommend] (app.py, lines 109-134) *)

Definition Recommendation : Type := list string * list (option string) * list Z.

(** The [for i in top_idxs] loop, with the three lists built so far. *)
Fixpoint recommend_loop (env : Env) (movies_df : DataFrame) (id_col : option string)
    (idxs : list nat) (acc : Recommendation) : M Recommendation :=
  match idxs with
  | [] => ret acc
  | i :: rest =>
      let '(names, posters, ids) := acc in
      let! row := lift (iloc movies_df i) in
      let names := names ++ [row_title row] in
      match id_col with
      | Some c =>
          let! tmdb_id := lift (row_int row c) in
          let ids := ids ++ [tmdb_id] in
          let! poster := fetch_poster env tmdb_id in
          recommend_loop env movies_df id_col rest (names, posters ++ [poster], ids)
      | None =>
          recommend_loop env movies_df id_col rest
                         (names, posters ++ [None], ids ++ [(-1)%Z])
      end
  end.

Definition id_col_of (movies_df : DataFrame) : option string :=
  if decide ("movie_id" ∈ columns movies_df) then Some "movie_id"
  else if decide ("id" ∈ columns movies_df) then Some "id"
  else None.

Definition recommend (env : Env) (selected_title : string)
    (movies_df : DataFrame) (similarity_matrix : list (list Q)) : M Recommendation :=
  match title_matches movies_df selected_title with
  | [] => ret ([], [], [])
  | i_sel :: _ =>
      let! row := lift (matrix_row similarity_matrix i_sel) in
      let top := top_idxs i_sel row in
      recommend_loop env movies_df (id_col_of movies_df) top ([], [], [])
  end.

(** ** The "Show Genre" handler (app.py, lines 254-273) *)

Definition GENRES : list (string * Z) :=
  [("Action", 28); ("Adventure", 12); ("Animation", 16); ("Comedy", 35);
   ("Crime", 80); ("Documentary", 99); ("Drama", 18); ("Family", 10751);
   ("Fantasy", 14); ("History", 36); ("Horror", 27); ("Musical", 10402);
   ("Mystery", 9648); ("Romance", 10749); ("Science Fiction", 878);
   ("Thriller", 53); ("War", 10752)]%Z.

(** [x or []]. *)
Definition or_nil {A : Type} (x : option (list A)) : list A :=
  match x with
  | Some (y :: l) => y :: l
  | _ => []
  end.

(** [a or b] on optional strings. *)
Definition or_str (a : option string) (b : option string) : option string :=
  match a with
  | Some s => if truthy s then Some s else b
  | None => b
  end.

(** One card of the page: what lines 269-273 compute for a movie. *)
Record Card : Type := mkCard {
  card_mid : option Z;
  card_name : string;
  card_poster : option string;
  card_tmdb_url : option string
}.

(** [f"{mid}"]: the decimal digits of an integer, ["None"] for [None]. *)
Definition format_mid (mid : option Z) : string :=
  match mid with
  | Some z => pretty z
  | None => "None"
  end.

Definition card_of (m : MovieDict) : Card :=
  (* m.get("id", -1): the default stands in for a missing key only *)
  let mid :=
    match m_id m with
    | Absent => Some (-1)%Z
    | JsonNull => None
    | Value z => Some z
    end in
  let name := default "Untitled" (or_str (m_title m) (or_str (m_name m) None)) in
  let poster :=
    match m_poster_path m with
    | Some p => if truthy p then Some (POSTER_BASE +:+ p) else None
    | None => None
    end in
  let tmdb_url :=
    if decide (mid ≠ Some (-1)%Z)
    then Some ("https://www.themoviedb.org/movie/" +:+ format_mid mid) else None in
  mkCard mid name poster tmdb_url.

(** What the handler puts on the page. *)
Inductive View : Type :=
  | Warning (message : string)
  | Cards (cards : list Card).

Definition GENRE_NOTICE : string :=
  "Couldn’t fetch movies for this genre right now.".

Definition show_genre (env : Env) (gid : Z) : M View :=
  let! page1 := fetch_by_genre env gid 1 in
  let! page2 := fetch_by_genre env gid 2 in
  let results := or_nil page1 ++ or_nil page2 in
  match results with
  | [] => ret (Warning GENRE_NOTICE)
  | _ => ret (Cards (map card_of (take TOP_K results)))
  end.

(** The click on "Show Genre": [gid = GENRES[genre_label]], then the
    handler. *)
Definition on_show_genre (env : Env) (genre_label : string) : M View :=
  match (list_to_map GENRES : gmap string Z) !! genre_label with
  | Some gid => show_genre env gid
  | None => raise KeyError
  end.

(** ** [recommend] on references *)

(** References.  The catalog and the matrix reach [recommend] as references
    to objects the whole process shares; [sims.sort] sorts a list in place.
    A store maps references to objects; the matrix is a list of references
    to its rows. *)
Definition loc : Type := nat.

Inductive object : Type :=
  | Frame (df : DataFrame)
  | Rows (rows : list loc)
  | Scores (row : list Q)
  | Pairs (ps : list (nat * Q)).

(** [sims.sort(key=lambda x: x[1], reverse=True)] on the object itself. *)
Definition sort_in_place (o : object) : object :=
  match o with
  | Pairs ps => Pairs (list_sort snd true ps)
  | _ => o
  end.

Definition recommend_ref (env : Env) (selected_title : string)
    (movies_df similarity_matrix : loc) (h : gmap loc object) (st : State)
    : (exn + Recommendation) * State * gmap loc object :=
  match h !! movies_df with
  | Some (Frame df) =>
      match title_matches df selected_title with
      | [] => (inr ([], [], []), st, h)
      | i_sel :: _ =>
          match h !! similarity_matrix with
          | Some (Rows rows) =>
              match getitem rows i_sel with
              | inr r =>
                  match h !! r with
                  | Some (Scores row) =>
                      (* sims = list(enumerate(...)): a new object *)
                      let sims := fresh (dom h) in
                      let h1 := <[sims := Pairs (enumerate row)]> h in
                      (* sims.sort(...) *)
                      let h2 := alter sort_in_place sims h1 in
                      match h2 !! sims with
                      | Some (Pairs ps) =>
                          let top_idxs :=
                            take TOP_K
                              (map fst (filter (λ p : nat * Q, Z.of_nat p.1 ≠ i_sel) ps)) in
                          (recommend_loop env df (id_col_of df) top_idxs ([], [], []) st,
                           h2)
                      | _ => (inl TypeError, st, h2)
                      end
                  | _ => (inl TypeError, st, h)
                  end
              | inl e => (inl e, st, h)
              end
          | _ => (inl TypeError, st, h)
          end
      end
  | _ => (inl TypeError, st, h)
  end.

(** ** The life of the process: what can happen to the state *)

Inductive action : Type :=
  | Tick (d : nat)
  | FetchPoster (movie_id : Z)
  | FetchByGenre (genre_id page : Z)
  | Recommend (title : string) (df : DataFrame) (sim : list (list Q))
  | ShowGenre (gid : Z).

Definition step (env : Env) (st : State) (a : action) : State :=
  match a with
  | Tick d => tick d st
  | FetchPoster movie_id => (fetch_poster env movie_id st).2
  | FetchByGenre genre_id page => (fetch_by_genre env genre_id page st).2
  | Recommend title df sim => (recommend env title df sim st).2
  | ShowGenre gid => (show_genre env gid st).2
  end.

Definition run (env : Env) (history : list action) : State :=
  foldl (step env) init_state history.

(** * Vocabulary of the properties *)

(** ** The order of a ranking *)

Section RankOrder.
Context {A : Type} (key : A → Q) (pos : A → nat).

(** [a] stands before [b] in an ascending stable sort of a list given in
    descending position. *)
Definition asc_before (a b : A) : Prop :=
  (key a < key b)%Q ∨ ((key b == key a)%Q ∧ pos b < pos a).

(** [a] is ranked before [b]: a greater key, or the same key and an
    earlier position. *)
Definition ranked_before (a b : A) : Prop :=
  (key b < key a)%Q ∨ ((key a == key b)%Q ∧ pos a < pos b).

End RankOrder.

(** Index [a] outranks index [b] in a similarity row: a greater score, or
    the same score and a smaller index. *)
Definition outranks (row : list Q) (a b : nat) : Prop :=
  ∃ sa sb, row !! a = Some sa ∧ row !! b = Some sb ∧
           ((sb < sa)%Q ∨ ((sa == sb)%Q ∧ a < b)).

(** The whole ranking, before the cut at [TOP_K]. *)
Definition ranked_others (i_sel : Z) (row : list Q) : list (nat * Q) :=
  filter (λ p : nat * Q, Z.of_nat p.1 ≠ i_sel) (sorted_sims row).

(** The names of the rows at [idxs]. *)
Definition names_of (df : DataFrame) (idxs : list nat) (names : list string) : Prop :=
  Forall2 (λ i n, col_title df !! i = Some n) idxs names.

(** Scores never increase along [idxs], and equal scores come in ascending
    index order. *)
Definition sorted_stable (row : list Q) (idxs : list nat) : Prop :=
  ∀ p q a b, p < q → idxs !! p = Some a → idxs !! q = Some b →
    ∃ sa sb, row !! a = Some sa ∧ row !! b = Some sb ∧
             (sb <= sa)%Q ∧ ((sa == sb)%Q → a < b).

(** ** The catalog and the matrix *)

(** The default index: the label of a row is its position. *)
Definition default_index (df : DataFrame) : Prop :=
  index df = Z.of_nat <$> seq 0 (length (col_title df)).

(** The positions of the rows that carry a title, in ascending order. *)
Definition title_positions (df : DataFrame) (title : string) : list nat :=
  map fst (filter (λ p : nat * string, p.2 = title) (enumerate (col_title df))).

(** The indices the loop of [recommend] goes through: none when the title
    has no row or the matrix no row for it. *)
Definition accepted (title : string) (df : DataFrame) (sim : list (list Q)) : list nat :=
  match title_matches df title with
  | [] => []
  | i_sel :: _ =>
      match matrix_row sim i_sel with
      | inr row => top_idxs i_sel row
      | inl _ => []
      end
  end.

(** The matrix is N×N for a catalog of N rows. *)
Definition aligned (df : DataFrame) (similarity_matrix : list (list Q)) : Prop :=
  length similarity_matrix = length (col_title df) ∧
  Forall (λ row, length row = length (col_title df)) similarity_matrix.

(** The column [id_col] names, if any. *)
Definition id_column (df : DataFrame) : option (list Z) :=
  match col_movie_id df with
  | Some c => Some c
  | None => col_id df
  end.

Definition id_col_cells (df : DataFrame) (id_col : option string) : option (list Z) :=
  match id_col with
  | Some c => if String.eqb c "movie_id" then col_movie_id df else col_id df
  | None => None
  end.

(** The identifier the loop reads for row [i]. *)
Definition id_at (cells : option (list Z)) (i : nat) (z : Z) : Prop :=
  match cells with
  | Some c => c !! i = Some z
  | None => z = (-1)%Z
  end.

(** Two outcomes that, if both are returns, hold the same names and the
    same identifiers, and as many posters. *)
Definition agree_when_returned (r1 r2 : exn + Recommendation) : Prop :=
  match r1, r2 with
  | inr (names1, posters1, ids1), inr (names2, posters2, ids2) =>
      names1 = names2 ∧ ids1 = ids2 ∧ length posters1 = length posters2
  | _, _ => True
  end.

(** ** The caches and the page *)

(** Every cache entry is what the decorated function computed when the
    entry was stored. *)
Definition caches_sound (env : Env) (st : State) : Prop :=
  (∀ movie_id t v, poster_cache st !! movie_id = Some (t, v) →
                   t ≤ now st ∧ v = fetch_poster_body env t movie_id) ∧
  (∀ g p t v, genre_cache st !! (g, p) = Some (t, v) →
              t ≤ now st ∧ v = fetch_by_genre_body env t g p).

(** The time at which the answer [fetch_by_genre] gives in [st] was asked
    of the service: when the live cache entry was stored, or now. *)
Definition page_time (st : State) (genre_id page : Z) : nat :=
  match genre_cache st !! (genre_id, page) with
  | Some (t, _) => if decide (now st < t + GENRE_TTL) then t else now st
  | None => now st
  end.

Definition poster_time (st : State) (movie_id : Z) : nat :=
  match poster_cache st !! movie_id with
  | Some (t, _) => if decide (now st < t + POSTER_TTL) then t else now st
  | None => now st
  end.

(** The movies an answer of the discover endpoint holds, in the order of
    the answer: those of the [results] list of a body, none for a failed
    request or a body without a list. *)
Definition answered (r : HttpResult (Field (list MovieDict))) : list MovieDict :=
  match r with
  | Json (Value results) => results
  | _ => []
  end.

(** The movies the service holds for a page asked at time [t] with the
    credential of the process; without a credential nothing is asked. *)
Definition service_results (env : Env) (t : nat) (genre_id page : Z) : list MovieDict :=
  match credential env with
  | Some key => answered (discover_movie (tmdb env) t key genre_id page)
  | None => []
  end.

(** The list a page contributes to the handler. *)
Definition service_page (env : Env) (t : nat) (genre_id page : Z) : list MovieDict :=
  or_nil (fetch_by_genre_body env t genre_id page).

(** The cards and the notice of a view. *)
Definition view_cards (v : View) : list Card :=
  match v with
  | Cards cards => cards
  | Warning _ => []
  end.

Definition view_notice (v : View) : option string :=
  match v with
  | Warning message => Some message
  | Cards _ => None
  end.

(** What the handler shows for the cards it keeps. *)
Definition shown (cards : list MovieDict) : View :=
  match cards with
  | [] => Warning GENRE_NOTICE
  | _ => Cards (map card_of cards)
  end.

(** ** The store *)

(** The matrix a reference stands for. *)
Definition scores_at (h : gmap loc object) (r : loc) : option (list Q) :=
  match h !! r with
  | Some (Scores row) => Some row
  | _ => None
  end.

Definition matrix_at (h : gmap loc object) (m : loc) : option (list (list Q)) :=
  match h !! m with
  | Some (Rows rows) => mapM (scores_at h) rows
  | _ => None
  end.

(** Every object of [h] is still there, unchanged, in [h']. *)
Definition preserved (h h' : gmap loc object) : Prop :=
  ∀ l o, h !! l = Some o → h' !! l = Some o.

(** * Fixtures *)

Definition offline : Service :=
  mkService (λ _ _ _, RequestException) (λ _ _ _ _, RequestException).

Definition no_key : Env := mkEnv None offline.

(** A service that is down from second 1000 on, and an environment with a
    credential for it. *)
Definition flaky : Service :=
  mkService
    (λ t _ _, if decide (t < 1000) then Json (Some "/a.jpg") else RequestException)
    (λ t _ g p, if decide (t < 1000)
                then Json (Value [mkMovieDict (Value (g + p)%Z) (Some "T") None None])
                else RequestException).

Definition with_key : Env := mkEnv (Some "secret") flaky.

(** Three movies; "B" and "C" are equally similar to "A". *)
Definition ties_df : DataFrame :=
  mkDataFrame [0; 1; 2]%Z ["A"; "B"; "C"] (Some [10; 11; 12]%Z) None.
Definition ties_sim : list (list Q) :=
  [[1; 1 # 2; 1 # 2]; [1 # 2; 1; 1 # 4]; [1 # 2; 1 # 4; 1]]%Q.

(** The same three movies under the labels a frame keeps when the row
    labelled 1 was dropped before it was saved, with their 3×3 matrix. *)
Definition gapped_df : DataFrame :=
  mkDataFrame [0; 2; 3]%Z ["A"; "B"; "C"] (Some [10; 11; 12]%Z) None.
Definition gapped_bare_df : DataFrame :=
  mkDataFrame [0; 2; 3]%Z ["A"; "B"; "C"] None None.
Definition gapped_sim : list (list Q) :=
  [[1; 9 # 10; 2 # 10]; [9 # 10; 1; 1 # 10]; [2 # 10; 1 # 10; 1]]%Q.

(** Two rows with the same title. *)
Definition twins_df : DataFrame := mkDataFrame [0; 1]%Z ["A"; "A"] None None.
Definition twins_sim : list (list Q) := [[1; 1]; [1; 1]]%Q.

(** The scenario of the specification. *)
Definition abcd_df : DataFrame :=
  mkDataFrame [0; 1; 2; 3]%Z ["A"; "B"; "C"; "D"] None (Some [7; 8; 9; 10]%Z).
Definition abcd_sim : list (list Q) := [[1; 9 # 10; 95 # 100; 1 # 10]]%Q.

Definition bare_df : DataFrame := mkDataFrame [0; 1; 2]%Z ["A"; "B"; "C"] None None.

(** The objects of the witness: the catalog, the matrix and its rows. *)
Definition ties_store : gmap loc object :=
  <[0 := Frame ties_df]>
  (<[1 := Rows [2; 3; 4]]>
  (<[2 := Scores [1; 1 # 2; 1 # 2]%Q]>
  (<[3 := Scores [1 # 2; 1; 1 # 4]%Q]>
  (<[4 := Scores [1 # 2; 1 # 4; 1]%Q]> ∅)))).

(** * The rest of the page *)

(** ** The "Recommend" handler (app.py, lines 220-248) *)

Definition RECOMMEND_NOTICE : string := "No recommendations found.".

(** One card of the recommendations (lines 229-247): the link is there
    unless the identifier is [-1]; a poster that is [None] or empty gives way
    to the placeholder image. *)
Definition recommendation_card (name : string) (poster : option string) (mid : Z) : Card :=
  let tmdb_url :=
    if decide (mid ≠ (-1)%Z)
    then Some ("https://www.themoviedb.org/movie/" +:+ pretty mid) else None in
  let image :=
    match poster with
    | Some p => if truthy p then Some p else None
    | None => None
    end in
  mkCard (Some mid) name image tmdb_url.

(** [zip(cols, names, posters, ids)] with [cols = st.columns(len(names))]. *)
Definition recommendation_cards (names : list string)
    (posters : list (option string)) (ids : list Z) : list Card :=
  zip_with (λ name pm, recommendation_card name pm.1 pm.2) names (zip posters ids).

Definition on_recommend (env : Env) (selected : string) (movies : DataFrame)
    (similarity : list (list Q)) : M View :=
  let! r := recommend env selected movies similarity in
  let '(names, posters, ids) := r in
  match names with
  | [] => ret (Warning RECOMMEND_NOTICE)
  | _ => ret (Cards (recommendation_cards names posters ids))
  end.

(** ** The artifacts (app.py, lines 189-211) *)

Definition MOVIE_DICT_FILE_ID : string := "1FVfcM3cdNjtvlrjDwcgt0kOD7SaDvc4E".
Definition SIMILARITY_FILE_ID : string := "12BZ1FILjFutgjxJvr9cWXyDPZ-MEjweA".

(** What [gdown.download(url, local_path)] comes to: the file is written,
    or the call gives up and returns [None], or it raises. *)
Inductive Download : Type :=
  | Saved (content : string)
  | NotSaved
  | DownloadError.

(** What the script leans on at start: the download, and the decoding of a
    file ([pickle.load], and [pd.DataFrame] for the catalog), which gives the
    value or the text of the exception. *)
Record Host : Type := mkHost {
  gdown_download : string → Download;
  load_movies : string → string + DataFrame;
  load_similarity : string → string + list (list Q)
}.

Inductive Message : Type :=
  | Info (text : string)
  | Error (text : string).

(** The files of the working directory and what the page has said so far. *)
Record Boot : Type := mkBoot {
  files : gmap string string;
  messages : list Message
}.

(** How a step of the script ends: it goes on, it stops the script
    ([st.stop()]), or an exception escapes. *)
Inductive Outcome (A : Type) : Type :=
  | Continue (a : A)
  | Stop
  | Crash.
Arguments Continue {A} a.
Arguments Stop {A}.
Arguments Crash {A}.

Definition ensure_from_drive (host : Host) (local_path file_id label : string)
    (b : Boot) : Outcome unit * Boot :=
  match files b !! local_path with
  | Some _ => (Continue (), b)
  | None =>
      let b1 :=
        mkBoot (files b)
               (messages b ++ [Info ("Downloading " +:+ label +:+ " from Google Drive…")]) in
      let url := "https://drive.google.com/uc?id=" +:+ file_id in
      match gdown_download host url with
      | Saved content =>
          (Continue (), mkBoot (<[local_path := content]> (files b1)) (messages b1))
      | NotSaved => (Continue (), b1)
      | DownloadError => (Crash, b1)
      end
  end.

(** [open(path, "rb")] followed by the decoding. *)
Definition open_and_load {A : Type} (decode : string → string + A)
    (path : string) (b : Boot) : string + A :=
  match files b !! path with
  | Some content => decode content
  | None => inl ("[Errno 2] No such file or directory: '" +:+ path +:+ "'")
  end.

(** Lines 205-211: the [try] around the two loads. *)
Definition load_artifacts (host : Host) (b : Boot)
    : Outcome (DataFrame * list (list Q)) * Boot :=
  match open_and_load (load_movies host) "movie_dict.pkl" b with
  | inl e => (Stop, mkBoot (files b) (messages b ++ [Error ("Failed to load data files: " +:+ e)]))
  | inr movies =>
      match open_and_load (load_similarity host) "similarity.pkl" b with
      | inl e => (Stop, mkBoot (files b) (messages b ++ [Error ("Failed to load data files: " +:+ e)]))
      | inr similarity => (Continue (movies, similarity), b)
      end
  end.

(** Lines 201-211 in order. *)
Definition startup (host : Host) (b : Boot)
    : Outcome (DataFrame * list (list Q)) * Boot :=
  match ensure_from_drive host "movie_dict.pkl" MOVIE_DICT_FILE_ID "movie_dict.pkl" b with
  | (Continue _, b1) =>
      match ensure_from_drive host "similarity.pkl" SIMILARITY_FILE_ID "similarity.pkl" b1 with
      | (Continue _, b2) => load_artifacts host b2
      | (Stop, b2) => (Stop, b2)
      | (Crash, b2) => (Crash, b2)
      end
  | (Stop, b1) => (Stop, b1)
  | (Crash, b1) => (Crash, b1)
  end.

(** * More vocabulary *)

(** Where a poster comes from: a URL stands for a path that is not empty,
    which the service answered for this very identifier, at some time up to
    [T], to a request made with the credential of the process. *)
Definition poster_from (env : Env) (T : nat) (movie_id : Z) (poster : option string)
    : Prop :=
  ∀ url, poster = Some url →
    ∃ t key p, t ≤ T ∧ credential env = Some key ∧
               movie_details (tmdb env) t key movie_id = Json (Some p) ∧
               p ≠ "" ∧ url = POSTER_BASE +:+ p.

(** * More fixtures *)

(** A catalog with both identifier columns, and a matrix whose first row is
    one score too long for it. *)
Definition both_ids_df : DataFrame :=
  mkDataFrame [0; 1; 2]%Z ["A"; "B"; "C"] (Some [10; 11; 12]%Z) (Some [90; 91; 92]%Z).
Definition wide_sim : list (list Q) := [[1; 1 # 2; 1 # 2; 3 # 4]]%Q.

(** Eight scores: more movies than [TOP_K] leaves room for. *)
Definition long_row : list Q :=
  [1; 1 # 10; 2 # 10; 3 # 10; 4 # 10; 5 # 10; 6 # 10; 7 # 10]%Q.

(** A shift of the scores, below zero for most of [long_row]. *)
Definition shift_down (q : Q) : Q := (q - (1 # 2))%Q.

(** A service whose discover endpoint answers with [results] set to
    [null]. *)
Definition null_results : Service :=
  mkService (λ _ _ _, RequestException) (λ _ _ _ _, Json JsonNull).

Definition null_env : Env := mkEnv (Some "secret") null_results.

(** A one-movie catalog with its 1×1 matrix. *)
Definition lone_df : DataFrame := mkDataFrame [0]%Z ["A"] (Some [10]%Z) None.
Definition lone_sim : list (list Q) := [[1]]%Q.

(** A host whose files decode to the three-movie catalog and its matrix,
    and whose downloads deliver (or quietly give up, or raise). *)
Definition decode_movies (content : string) : string + DataFrame :=
  if String.eqb content "movies" then inr ties_df else inl "invalid load key".

Definition decode_similarity (content : string) : string + list (list Q) :=
  if String.eqb content "similarity" then inr ties_sim else inl "invalid load key".

Definition drive_ok : Host :=
  mkHost (λ url, if String.eqb url ("https://drive.google.com/uc?id=" +:+ MOVIE_DICT_FILE_ID)
                 then Saved "movies" else Saved "similarity")
         decode_movies decode_similarity.

Definition drive_quiet : Host := mkHost (λ _, NotSaved) decode_movies decode_similarity.

Definition drive_down : Host := mkHost (λ _, DownloadError) decode_movies decode_similarity.

Definition empty_boot : Boot := mkBoot ∅ [].

Definition ready_boot : Boot :=
  mkBoot (<["similarity.pkl" := "similarity"]> (<["movie_dict.pkl" := "movies"]> ∅)) [].

(** * Properties *)

(** ** The ranking on examples *)

Example top_idxs_scenario :
  top_idxs 0 [1; 9 # 10; 95 # 100; 1 # 10]%Q = [2; 1; 3].
Proof. vm_compute. reflexivity. Qed.

Example top_idxs_ties :
  top_idxs 0 [1; 1 # 2; 2 # 4; 1 # 2; 3 # 4]%Q = [4; 1; 2; 3].
Proof. vm_compute. reflexivity. Qed.

(** ** Scores *)

Lemma Qltb_lt (a b : Q) : Qltb a b = true ↔ (a < b)%Q.
Proof.
  unfold Qltb. rewrite Qlt_alt. destruct (a ?= b)%Q; split; congruence.
Qed.

Lemma Qltb_ge (a b : Q) : Qltb a b = false ↔ (b <= a)%Q.
Proof.
  rewrite <- not_true_iff_false, Qltb_lt. split.
  - apply Qnot_lt_le.
  - intros H1 H2. exact (Qlt_not_le _ _ H2 H1).
Qed.

(** ** [list.sort] is a stable sort *)

Lemma StronglySorted_rev {A : Type} (R : relation A) (l : list A) :
  StronglySorted R l → StronglySorted (flip R) (reverse l).
Proof.
  induction 1 as [|a l Hl IH Ha]; [constructor|].
  rewrite reverse_cons. apply StronglySorted_app. split_and!.
  - intros x y Hx Hy. apply list_elem_of_singleton in Hy as ->.
    rewrite Forall_forall in Ha. apply Ha. by apply elem_of_reverse.
  - done.
  - repeat constructor.
Qed.

Lemma StronglySorted_sublist {A : Type} (R : relation A) (k l : list A) :
  k `sublist_of` l → StronglySorted R l → StronglySorted R k.
Proof.
  induction 1 as [|x k l Hkl IH|x k l Hkl IH]; intros Hs.
  - constructor.
  - apply StronglySorted_inv in Hs as [Hs Hx]. constructor; [by apply IH|].
    rewrite Forall_forall in Hx |- *. intros y Hy. apply Hx.
    by eapply elem_of_sublist.
  - apply StronglySorted_inv in Hs as [Hs _]. by apply IH.
Qed.

Section ListSortFacts.
Context {A : Type} (key : A → Q) (pos : A → nat).

Lemma insert_sorted_perm (x : A) (l : list A) :
  insert_sorted key x l ≡ₚ x :: l.
Proof.
  induction l as [|y l IH]; simpl; [done|].
  destruct (Qltb (key y) (key x)); [|done].
  rewrite IH. apply perm_swap.
Qed.

Lemma stable_sort_perm (l : list A) : stable_sort key l ≡ₚ l.
Proof.
  induction l as [|x l IH]; simpl; [done|].
  by rewrite insert_sorted_perm, IH.
Qed.

Lemma list_sort_perm (reverse : bool) (l : list A) :
  list_sort key reverse l ≡ₚ l.
Proof.
  unfold list_sort. destruct reverse; [|apply stable_sort_perm].
  by rewrite reverse_Permutation, stable_sort_perm, reverse_Permutation.
Qed.

Lemma asc_before_key_le (a b : A) : asc_before key pos a b → (key a <= key b)%Q.
Proof.
  intros [Hlt | [Heq _]]; [by apply Qlt_le_weak|].
  rewrite Heq. apply Qle_refl.
Qed.

Lemma insert_sorted_asc (x : A) (l : list A) :
  StronglySorted (asc_before key pos) l →
  Forall (λ y, pos y < pos x) l →
  StronglySorted (asc_before key pos) (insert_sorted key x l).
Proof.
  induction l as [|y l IH]; intros Hs Hpos; simpl.
  { repeat constructor. }
  apply StronglySorted_inv in Hs as [Hs Hy].
  apply Forall_cons in Hpos as [Hyx Hpos].
  destruct (Qltb (key y) (key x)) eqn:Hcmp.
  - apply Qltb_lt in Hcmp. constructor; [by apply IH|].
    rewrite insert_sorted_perm. constructor; [by left | done].
  - apply Qltb_ge in Hcmp.
    assert (Hall : Forall (λ z, (key x <= key z)%Q ∧ pos z < pos x) (y :: l)).
    { constructor; [done|].
      rewrite Forall_forall in Hy, Hpos |- *. intros z Hz. split; [|by apply Hpos].
      eapply Qle_trans; [exact Hcmp|]. apply asc_before_key_le. by apply Hy. }
    constructor; [by constructor|].
    eapply Forall_impl; [exact Hall|]. intros z [Hle Hz]. simpl in *.
    destruct (Qle_lt_or_eq _ _ Hle) as [Hlt | Heq]; [by left|].
    right. split; [by symmetry | done].
Qed.

Lemma stable_sort_asc (l : list A) :
  StronglySorted (λ a b, pos b < pos a) l →
  StronglySorted (asc_before key pos) (stable_sort key l).
Proof.
  induction 1 as [|x l Hl IH Hx]; simpl; [constructor|].
  apply insert_sorted_asc; [done|]. by rewrite stable_sort_perm.
Qed.

(** A descending sort keeps equal keys in input order. *)
Lemma list_sort_reverse_ranked (l : list A) :
  StronglySorted (λ a b, pos a < pos b) l →
  StronglySorted (ranked_before key pos) (list_sort key true l).
Proof.
  intros Hl. unfold list_sort.
  apply (StronglySorted_rev (asc_before key pos)), stable_sort_asc.
  by apply (StronglySorted_rev (λ a b, pos a < pos b)).
Qed.

End ListSortFacts.

(** ** [enumerate] *)

Lemma enumerate_from_lookup {A : Type} (n : nat) (xs : list A) (j : nat) (x : A) :
  (j, x) ∈ enumerate_from n xs ↔ (n ≤ j)%nat ∧ xs !! (j - n) = Some x.
Proof.
  revert n. induction xs as [|y xs IH]; intros n; simpl.
  - rewrite elem_of_nil, lookup_nil. split; [done | by intros [_ ?]].
  - rewrite elem_of_cons, IH. split.
    + intros [[= -> ->] | [Hle Hx]].
      * split; [lia|]. by rewrite Nat.sub_diag.
      * split; [lia|]. by replace (j - n) with (S (j - S n)) by lia.
    + intros [Hle Hx]. destruct (decide (j = n)) as [-> | Hne].
      * left. rewrite Nat.sub_diag in Hx. by injection Hx as ->.
      * right. split; [lia|].
        by replace (j - n) with (S (j - S n)) in Hx by lia.
Qed.

Lemma enumerate_lookup {A : Type} (xs : list A) (j : nat) (x : A) :
  (j, x) ∈ enumerate xs ↔ xs !! j = Some x.
Proof.
  unfold enumerate. rewrite enumerate_from_lookup, Nat.sub_0_r.
  split; [by intros [_ ?] | intros; split; [lia | done]].
Qed.

Lemma enumerate_from_sorted {A : Type} (n : nat) (xs : list A) :
  StronglySorted (λ a b : nat * A, a.1 < b.1) (enumerate_from n xs).
Proof.
  revert n. induction xs as [|y xs IH]; intros n; simpl; constructor; [done|].
  apply Forall_forall. intros [j x] Hjx. apply enumerate_from_lookup in Hjx.
  simpl. lia.
Qed.

Lemma enumerate_from_fst {A : Type} (n : nat) (xs : list A) :
  map fst (enumerate_from n xs) = seq n (length xs).
Proof.
  revert n. induction xs as [|y xs IH]; intros n; simpl; [done|].
  by rewrite IH.
Qed.

(** ** The ranking *)

Lemma StronglySorted_impl_elem {A : Type} (R R' : relation A) (l : list A) :
  (∀ x y, x ∈ l → y ∈ l → R x y → R' x y) →
  StronglySorted R l → StronglySorted R' l.
Proof.
  intros HR Hs. induction Hs as [|a l Hl IH Ha]; constructor.
  - apply IH. intros x y Hx Hy. apply HR; by apply elem_of_cons; right.
  - rewrite Forall_forall in Ha |- *. intros y Hy.
    apply HR; [by left | by right | by apply Ha].
Qed.

Lemma sorted_sims_perm (row : list Q) : sorted_sims row ≡ₚ enumerate row.
Proof. apply list_sort_perm. Qed.

Lemma sorted_sims_ranked (row : list Q) :
  StronglySorted (ranked_before snd fst) (sorted_sims row).
Proof. apply list_sort_reverse_ranked, enumerate_from_sorted. Qed.

Lemma top_idxs_unfold (i_sel : Z) (row : list Q) :
  top_idxs i_sel row = (take TOP_K (ranked_others i_sel row)).*1.
Proof. unfold top_idxs, ranked_others. by rewrite fmap_take. Qed.

Lemma elem_of_ranked_others (i_sel : Z) (row : list Q) (j : nat) (s : Q) :
  (j, s) ∈ ranked_others i_sel row ↔ Z.of_nat j ≠ i_sel ∧ row !! j = Some s.
Proof.
  unfold ranked_others.
  by rewrite list_elem_of_filter, sorted_sims_perm, enumerate_lookup.
Qed.

Lemma ranked_others_sorted (i_sel : Z) (row : list Q) :
  StronglySorted (λ p q : nat * Q, outranks row p.1 q.1) (ranked_others i_sel row).
Proof.
  apply (StronglySorted_impl_elem (ranked_before snd fst)).
  - intros [a sa] [b sb] Ha Hb Hab.
    apply elem_of_ranked_others in Ha as [_ Ha], Hb as [_ Hb].
    by exists sa, sb.
  - eapply StronglySorted_sublist; [apply sublist_filter | apply sorted_sims_ranked].
Qed.

Lemma top_idxs_sorted (i_sel : Z) (row : list Q) :
  StronglySorted (outranks row) (top_idxs i_sel row).
Proof.
  rewrite top_idxs_unfold.
  apply (StronglySorted_fmap fst (λ p q : nat * Q, outranks row p.1 q.1)); [done|].
  eapply StronglySorted_sublist; [apply sublist_take | apply ranked_others_sorted].
Qed.

Lemma elem_of_top_idxs (i_sel : Z) (row : list Q) (j : nat) :
  j ∈ top_idxs i_sel row → Z.of_nat j ≠ i_sel ∧ j < length row.
Proof.
  rewrite top_idxs_unfold. intros ([j' s] & -> & Hjs)%list_elem_of_fmap.
  assert (Hin : (j', s) ∈ ranked_others i_sel row).
  { eapply elem_of_sublist; [exact Hjs | apply sublist_take]. }
  apply elem_of_ranked_others in Hin as [Hne Hrow].
  split; [done | by eapply lookup_lt_Some].
Qed.

Lemma top_idxs_length_le (i_sel : Z) (row : list Q) :
  length (top_idxs i_sel row) ≤ TOP_K.
Proof. unfold top_idxs. rewrite length_take. lia. Qed.

Lemma filter_ne_enumerate_length {A : Type} (i : Z) (a : nat) (xs : list A) :
  length (filter (λ p : nat * A, Z.of_nat p.1 ≠ i) (enumerate_from a xs)) =
  if decide (Z.of_nat a ≤ i < Z.of_nat (a + length xs))%Z
  then length xs - 1 else length xs.
Proof.
  revert a. induction xs as [|x xs IH]; intros a; simpl.
  { case_decide; [lia | done]. }
  rewrite filter_cons. simpl.
  destruct (decide (Z.of_nat a ≠ i)) as [Hne | Heq]; simpl.
  - rewrite IH. repeat case_decide; lia.
  - rewrite IH. repeat case_decide; lia.
Qed.

Lemma ranked_others_length (i_sel : nat) (row : list Q) :
  i_sel < length row →
  length (ranked_others (Z.of_nat i_sel) row) = length row - 1.
Proof.
  intros Hlt. unfold ranked_others. rewrite sorted_sims_perm.
  unfold enumerate. rewrite filter_ne_enumerate_length.
  case_decide; [done | lia].
Qed.

Lemma top_idxs_length (i_sel : nat) (row : list Q) :
  i_sel < length row →
  length (top_idxs (Z.of_nat i_sel) row) = TOP_K `min` (length row - 1).
Proof.
  intros Hlt. rewrite top_idxs_unfold, length_fmap, length_take.
  by rewrite ranked_others_length.
Qed.

(** ** The catalog *)

Lemma elem_of_title_positions (df : DataFrame) (t : string) (j : nat) :
  j ∈ title_positions df t ↔ col_title df !! j = Some t.
Proof.
  unfold title_positions. rewrite list_elem_of_fmap. split.
  - intros ([j' s] & -> & Hin). apply list_elem_of_filter in Hin as [Heq Hin].
    simpl in *. subst s. by apply enumerate_lookup.
  - intros Hj. exists (j, t). split; [done|].
    apply list_elem_of_filter. split; [done | by apply enumerate_lookup].
Qed.

Lemma title_positions_sorted (df : DataFrame) (t : string) :
  StronglySorted lt (title_positions df t).
Proof.
  apply (StronglySorted_fmap fst (λ a b : nat * string, a.1 < b.1)); [done|].
  eapply StronglySorted_sublist; [apply sublist_filter | apply enumerate_from_sorted].
Qed.

(** A title of the catalog has a first row. *)
Lemma title_positions_present (df : DataFrame) (t : string) :
  t ∈ col_title df →
  ∃ pos rest, title_positions df t = pos :: rest ∧
              col_title df !! pos = Some t ∧
              ∀ j, col_title df !! j = Some t → pos ≤ j.
Proof.
  intros [j Hj]%list_elem_of_lookup_1.
  apply elem_of_title_positions in Hj.
  pose proof (title_positions_sorted df t) as Hs.
  destruct (title_positions df t) as [|i rest] eqn:E; [by apply elem_of_nil in Hj|].
  exists i, rest. split; [done|]. split.
  - apply elem_of_title_positions. rewrite E. by left.
  - intros k Hk. apply elem_of_title_positions in Hk. rewrite E in Hk.
    apply StronglySorted_inv in Hs as [_ Hall].
    apply elem_of_cons in Hk as [-> | Hk]; [done|].
    rewrite Forall_forall in Hall. specialize (Hall k Hk). lia.
Qed.

Lemma title_matches_absent (df : DataFrame) (t : string) :
  t ∉ col_title df → title_matches df t = [].
Proof.
  intros Hnot. destruct (title_matches df t) as [|l rest] eqn:E; [done|].
  exfalso. apply Hnot.
  assert (Hl : l ∈ title_matches df t) by (rewrite E; by left).
  unfold title_matches in Hl.
  apply list_elem_of_fmap in Hl as ([l' s] & _ & Hin).
  apply list_elem_of_filter in Hin as [Heq Hin]. simpl in Heq. subst s.
  by apply elem_of_zip_r in Hin.
Qed.

Lemma title_matches_seq (t : string) (n : nat) (titles : list string) :
  map fst (filter (λ p : Z * string, p.2 = t)
                  (zip (Z.of_nat <$> seq n (length titles)) titles))
  = Z.of_nat <$> map fst (filter (λ p : nat * string, p.2 = t)
                                 (enumerate_from n titles)).
Proof.
  revert n. induction titles as [|s titles IH]; intros n; [done|].
  simpl. rewrite !filter_cons. simpl.
  destruct (decide (s = t)); simpl; by rewrite IH.
Qed.

(** With the default index the labels [recommend] finds are the positions. *)
Lemma title_matches_default (df : DataFrame) (t : string) :
  default_index df → title_matches df t = Z.of_nat <$> title_positions df t.
Proof.
  intros Hidx. unfold title_matches, title_positions, enumerate.
  rewrite Hidx. apply title_matches_seq.
Qed.

(** A title of a catalog with the default index selects its first row. *)
Lemma title_matches_present (df : DataFrame) (t : string) :
  default_index df → t ∈ col_title df →
  ∃ pos rest, title_matches df t = Z.of_nat pos :: rest ∧
              col_title df !! pos = Some t ∧
              ∀ j, col_title df !! j = Some t → pos ≤ j.
Proof.
  intros Hidx Hin.
  destruct (title_positions_present df t Hin) as (pos & rest & Hp & Ht & Hmin).
  exists pos, (Z.of_nat <$> rest).
  rewrite (title_matches_default df t Hidx), Hp. done.
Qed.

Lemma getitem_of_nat {A : Type} (xs : list A) (i : nat) :
  getitem xs (Z.of_nat i)
  = match xs !! i with
    | Some x => inr x
    | None => inl IndexError
    end.
Proof.
  unfold getitem. cbv zeta.
  destruct (decide (Z.of_nat i < 0)%Z) as [Hneg | _]; [lia|].
  destruct (decide (Z.of_nat i < 0)%Z) as [Hneg | _]; [lia|].
  by rewrite Nat2Z.id.
Qed.

Lemma id_col_of_cells (df : DataFrame) :
  id_col_cells df (id_col_of df) = id_column df ∧
  (id_col_of df = None ↔ id_column df = None).
Proof.
  unfold id_col_cells, id_col_of, id_column, columns.
  destruct (col_movie_id df), (col_id df); simpl; split; try done.
Qed.

Lemma frame_ok_id_column (df : DataFrame) (c : list Z) :
  frame_ok df → id_column df = Some c → length c = length (col_title df).
Proof.
  intros [H1 H2]. unfold id_column.
  destruct (col_movie_id df) as [c'|] eqn:E.
  - intros [= <-]. by apply H1.
  - apply H2.
Qed.

(** ** The poster lookup always returns, and touches only its own cache *)

Lemma fetch_poster_returns (env : Env) (movie_id : Z) (st : State) :
  ∃ v st', fetch_poster env movie_id st = (inr v, st') ∧
           now st' = now st ∧ genre_cache st' = genre_cache st.
Proof.
  unfold fetch_poster.
  destruct (cache_get POSTER_TTL (now st) (poster_cache st) movie_id); eauto.
Qed.

Lemma fetch_by_genre_returns (env : Env) (genre_id page : Z) (st : State) :
  ∃ v st', fetch_by_genre env genre_id page st = (inr v, st') ∧
           now st' = now st ∧ poster_cache st' = poster_cache st.
Proof.
  unfold fetch_by_genre.
  destruct (cache_get GENRE_TTL (now st) (genre_cache st) (genre_id, page)); eauto.
Qed.

(** ** The loop of [recommend] *)

Lemma recommend_loop_cons (env : Env) (df : DataFrame) (id_col : option string)
    (i : nat) (rest : list nat) (names : list string)
    (posters : list (option string)) (ids : list Z) (st : State) :
  recommend_loop env df id_col (i :: rest) (names, posters, ids) st =
  match iloc df i with
  | inl e => (inl e, st)
  | inr row =>
      match id_col with
      | Some c =>
          match row_int row c with
          | inl e => (inl e, st)
          | inr z =>
              match fetch_poster env z st with
              | (inl e, st') => (inl e, st')
              | (inr poster, st') =>
                  recommend_loop env df id_col rest
                    (names ++ [row_title row], posters ++ [poster], ids ++ [z]) st'
              end
          end
      | None =>
          recommend_loop env df id_col rest
            (names ++ [row_title row], posters ++ [None], ids ++ [(-1)%Z]) st
      end
  end.
Proof.
  simpl. unfold bind, lift, ret, raise.
  destruct (iloc df i) as [e | row]; [done|].
  destruct id_col as [c|]; [|done].
  by destruct (row_int row c).
Qed.

Lemma recommend_loop_spec (env : Env) (df : DataFrame) (id_col : option string)
    (idxs : list nat) :
  (id_col = None ↔ id_col_cells df id_col = None) →
  (∀ c, id_col_cells df id_col = Some c → length c = length (col_title df)) →
  Forall (λ i, i < length (col_title df)) idxs →
  ∀ names0 posters0 ids0 st,
  ∃ names posters ids st',
    recommend_loop env df id_col idxs (names0, posters0, ids0) st
      = (inr (names0 ++ names, posters0 ++ posters, ids0 ++ ids), st') ∧
    Forall2 (λ i n, col_title df !! i = Some n) idxs names ∧
    length posters = length idxs ∧
    Forall2 (id_at (id_col_cells df id_col)) idxs ids ∧
    (id_col = None → posters = replicate (length idxs) None ∧ st' = st).
Proof.
  intros Hnone Hlen. induction 1 as [|i idxs Hi Hidxs IH]; intros names0 posters0 ids0 st.
  { exists [], [], [], st. rewrite !app_nil_r. by repeat split; try constructor. }
  destruct (lookup_lt_is_Some_2 _ _ Hi) as [t Ht].
  simpl. unfold bind at 1, lift at 1, iloc. rewrite Ht. simpl.
  destruct id_col as [c|].
  - destruct (id_col_cells df (Some c)) as [cells|] eqn:Hcells;
      [|destruct Hnone as [_ Hn]; by specialize (Hn eq_refl)].
    assert (∃ z, cells !! i = Some z) as [z Hz].
    { apply lookup_lt_is_Some_2. rewrite (Hlen cells); done. }
    unfold row_int at 1. simpl.
    assert (Hcell : (if String.eqb c "movie_id"
                     then col_movie_id df ≫= (λ c, c !! i)
                     else col_id df ≫= (λ c, c !! i)) = Some z).
    { simpl in Hcells. destruct (String.eqb c "movie_id"); rewrite Hcells; done. }
    rewrite Hcell. unfold bind at 1, lift at 1, ret at 1.
    unfold bind at 1.
    destruct (fetch_poster_returns env z st) as (v & st1 & -> & _ & _).
    destruct (IH (names0 ++ [t]) (posters0 ++ [v]) (ids0 ++ [z]) st1)
      as (names & posters & ids & st' & -> & Hn & Hp & Hi' & _).
    exists (t :: names), (v :: posters), (z :: ids), st'.
    rewrite <- !app_assoc. simpl. repeat split; try done.
    + by constructor.
    + by rewrite Hp.
    + by constructor.
  - destruct (IH (names0 ++ [t]) (posters0 ++ [None]) (ids0 ++ [(-1)%Z]) st)
      as (names & posters & ids & st' & -> & Hn & Hp & Hi' & Hpn).
    destruct (Hpn eq_refl) as [-> ->].
    exists (t :: names), (None :: replicate (length idxs) None), ((-1)%Z :: ids), st.
    rewrite <- !app_assoc. simpl. repeat split; try done.
    + by constructor.
    + by rewrite length_replicate.
    + by constructor.
Qed.

Lemma recommend_loop_lengths (env : Env) (df : DataFrame) (id_col : option string)
    (idxs : list nat) (names0 : list string) (posters0 : list (option string))
    (ids0 : list Z) (st : State) :
  match recommend_loop env df id_col idxs (names0, posters0, ids0) st with
  | (inr (names, posters, ids), _) =>
      length names = length names0 + length idxs ∧
      length posters = length posters0 + length idxs ∧
      length ids = length ids0 + length idxs
  | (inl _, _) => True
  end.
Proof.
  revert names0 posters0 ids0 st.
  induction idxs as [|i idxs IH]; intros names0 posters0 ids0 st; simpl.
  { unfold ret. lia. }
  unfold bind at 1. destruct (iloc df i) as [e | row]; simpl; [done|].
  destruct id_col as [c|].
  - unfold bind at 1. destruct (row_int row c) as [e | z]; simpl; [done|].
    unfold bind at 1.
    destruct (fetch_poster_returns env z st) as (v & st1 & -> & _).
    specialize (IH (names0 ++ [row_title row]) (posters0 ++ [v]) (ids0 ++ [z]) st1).
    destruct (recommend_loop _ _ _ _ _ _) as [[e | [[names posters] ids]] st']; [done|].
    rewrite !length_app in IH. simpl in IH. lia.
  - specialize (IH (names0 ++ [row_title row]) (posters0 ++ [None])
                   (ids0 ++ [(-1)%Z]) st).
    destruct (recommend_loop _ _ _ _ _ _) as [[e | [[names posters] ids]] st']; [done|].
    rewrite !length_app in IH. simpl in IH. lia.
Qed.

(** ** [recommend] on a title of the catalog *)

Lemma recommend_row_spec (env : Env) (title : string) (df : DataFrame)
    (sim : list (list Q)) (st : State) (i_sel : Z) (rest : list Z) (row : list Q) :
  frame_ok df →
  title_matches df title = i_sel :: rest →
  matrix_row sim i_sel = inr row →
  length row ≤ length (col_title df) →
  ∃ names posters ids st',
    recommend env title df sim st = (inr (names, posters, ids), st') ∧
    Forall2 (λ i n, col_title df !! i = Some n) (top_idxs i_sel row) names ∧
    length posters = length (top_idxs i_sel row) ∧
    Forall2 (id_at (id_column df)) (top_idxs i_sel row) ids ∧
    (id_column df = None →
     posters = replicate (length (top_idxs i_sel row)) None ∧ st' = st).
Proof.
  intros Hok Hmatch Hrow Hlen. unfold recommend. rewrite Hmatch.
  unfold bind, lift. rewrite Hrow. simpl.
  destruct (id_col_of_cells df) as [Hcells Hnone].
  destruct (recommend_loop_spec env df (id_col_of df) (top_idxs i_sel row))
    with (names0 := @nil string) (posters0 := @nil (option string))
         (ids0 := @nil Z) (st := st)
    as (names & posters & ids & st' & Heq & Hn & Hp & Hi & Hpn).
  - by rewrite Hcells.
  - rewrite Hcells. intros c. by apply frame_ok_id_column.
  - apply Forall_forall. intros j [_ Hj]%elem_of_top_idxs. lia.
  - exists names, posters, ids, st'. rewrite Hcells in Hi.
    split; [exact Heq|]. repeat split; try done; by apply Hpn, Hnone.
Qed.

(** [recommend] on a title of a catalog with the default index, aligned
    with its matrix. *)
Lemma recommend_spec (env : Env) (title : string) (df : DataFrame)
    (sim : list (list Q)) (st : State) :
  frame_ok df → default_index df → aligned df sim → title ∈ col_title df →
  ∃ i_sel row names posters ids st',
    col_title df !! i_sel = Some title ∧
    (∀ j, col_title df !! j = Some title → i_sel ≤ j) ∧
    sim !! i_sel = Some row ∧
    length row = length (col_title df) ∧
    recommend env title df sim st = (inr (names, posters, ids), st') ∧
    Forall2 (λ i n, col_title df !! i = Some n) (top_idxs (Z.of_nat i_sel) row) names ∧
    length posters = length (top_idxs (Z.of_nat i_sel) row) ∧
    Forall2 (id_at (id_column df)) (top_idxs (Z.of_nat i_sel) row) ids ∧
    (id_column df = None →
     posters = replicate (length (top_idxs (Z.of_nat i_sel) row)) None ∧ st' = st).
Proof.
  intros Hok Hidx [Hrows Hcols] Hin.
  destruct (title_matches_present df title Hidx Hin)
    as (i_sel & rest & Hm & Ht & Hfirst).
  assert (Hlt : i_sel < length sim).
  { rewrite Hrows. by eapply lookup_lt_Some. }
  destruct (lookup_lt_is_Some_2 _ _ Hlt) as [row Hrow].
  assert (Hlen : length row = length (col_title df)).
  { rewrite Forall_forall in Hcols. apply Hcols. by eapply list_elem_of_lookup_2. }
  destruct (recommend_row_spec env title df sim st (Z.of_nat i_sel) rest row)
    as (names & posters & ids & st' & H); [done | done | | lia |].
  { unfold matrix_row. by rewrite getitem_of_nat, Hrow. }
  exists i_sel, row, names, posters, ids, st'. by repeat split; try apply H.
Qed.

Lemma StronglySorted_lookup {A : Type} (R : relation A) (l : list A)
    (p q : nat) (a b : A) :
  StronglySorted R l → p < q → l !! p = Some a → l !! q = Some b → R a b.
Proof.
  intros Hs. revert p q. induction Hs as [|x l Hl IH Hx]; intros p q Hpq Hp Hq.
  { by rewrite lookup_nil in Hp. }
  destruct q as [|q]; [lia|]. simpl in Hq. destruct p as [|p]; simpl in Hp.
  - injection Hp as ->. rewrite Forall_forall in Hx. apply Hx.
    by eapply list_elem_of_lookup_2.
  - apply (IH p q); [lia | done | done].
Qed.

Lemma Forall2_id_at_None (idxs : list nat) (ids : list Z) :
  Forall2 (id_at None) idxs ids → ids = replicate (length idxs) (-1)%Z.
Proof. induction 1 as [|i z idxs ids Hz _ IH]; simpl; [done|]. by rewrite Hz, IH. Qed.

(** ** [recommend] on the catalog: order, length, exclusions *)

Lemma ties_ok :
  frame_ok ties_df ∧ default_index ties_df ∧ aligned ties_df ties_sim ∧
  "A" ∈ col_title ties_df.
Proof.
  split_and!.
  - split; simpl; intros c [= <-]; reflexivity.
  - reflexivity.
  - split; [reflexivity | repeat constructor].
  - simpl. apply elem_of_cons. by left.
Defined.

Lemma gapped_ok :
  frame_ok gapped_df ∧ aligned gapped_df gapped_sim ∧
  length (index gapped_df) = length (col_title gapped_df).
Proof.
  split_and!.
  - split; simpl; intros c [= <-]; reflexivity.
  - split; [reflexivity | repeat constructor].
  - reflexivity.
Qed.

(** C1: the code fails the claim on a catalog whose index labels are not the
    row positions.  With the labels 0, 2, 3 the title "B", on row 1, has the
    label 2: [recommend] ranks by row 2 of the matrix, the row of "C", and
    leaves out index 2.  It returns "A" and then "B" itself, and by the
    scores of "B" (0.9 for "A", 1 for "B") that is not a descending order. *)
Lemma recommend_gapped_index_ranks_another_row :
  index gapped_df = [0; 2; 3]%Z ∧
  col_title gapped_df !! 1 = Some "B" ∧
  gapped_sim !! 1 = Some [9 # 10; 1; 1 # 10]%Q ∧
  title_matches gapped_df "B" = [2%Z] ∧
  recommend no_key "B" gapped_df gapped_sim init_state
    = (inr (["A"; "B"], [None; None], [10; 11]%Z),
       (recommend no_key "B" gapped_df gapped_sim init_state).2) ∧
  names_of gapped_df [0; 1] ["A"; "B"] ∧
  ¬ sorted_stable [9 # 10; 1; 1 # 10]%Q [0; 1].
Proof.
  split_and!; try reflexivity.
  - repeat constructor.
  - intros Hsorted.
    destruct (Hsorted 0 1 0 1) as (sa & sb & Hsa & Hsb & Hle & _); try done; [lia|].
    injection Hsa as <-. injection Hsb as <-.
    revert Hle. unfold Qle. simpl. lia.
Qed.

(** X24: on a catalog whose index labels are the row positions, aligned
    with its matrix, the ranking [recommend] computes for a title of the
    catalog is in descending order of similarity score, and of two indices
    with the same score the smaller one comes first. *)
Theorem recommend_sorted_stable (env : Env) (title : string) (df : DataFrame)
    (sim : list (list Q)) (st : State) :
  frame_ok df → default_index df → aligned df sim → title ∈ col_title df →
  ∃ i_sel row names posters ids st',
    col_title df !! i_sel = Some title ∧
    sim !! i_sel = Some row ∧
    recommend env title df sim st = (inr (names, posters, ids), st') ∧
    names_of df (top_idxs (Z.of_nat i_sel) row) names ∧
    sorted_stable row (top_idxs (Z.of_nat i_sel) row).
Proof.
  intros Hok Hidx Hal Hin.
  destruct (recommend_spec env title df sim st Hok Hidx Hal Hin)
    as (i_sel & row & names & posters & ids & st' & Ht & _ & Hrow & _ & Hrec & Hn & _).
  exists i_sel, row, names, posters, ids, st'. split_and!; try done.
  intros p q a b Hpq Ha Hb.
  destruct (StronglySorted_lookup _ _ p q a b (top_idxs_sorted _ row) Hpq Ha Hb)
    as (sa & sb & Hsa & Hsb & Hord).
  exists sa, sb. split_and!; try done.
  - destruct Hord as [Hlt | [Heq _]]; [by apply Qlt_le_weak|].
    rewrite Heq. apply Qle_refl.
  - intros Heq. destruct Hord as [Hlt | [_ Hab]]; [|done].
    rewrite Heq in Hlt. by apply Qlt_irrefl in Hlt.
Qed.

Lemma recommend_sorted_stable_witness :
  (frame_ok ties_df ∧ default_index ties_df ∧ aligned ties_df ties_sim ∧
   "A" ∈ col_title ties_df) ∧
  ∃ i_sel row names posters ids st',
    col_title ties_df !! i_sel = Some "A" ∧
    ties_sim !! i_sel = Some row ∧
    recommend no_key "A" ties_df ties_sim init_state = (inr (names, posters, ids), st') ∧
    names_of ties_df (top_idxs (Z.of_nat i_sel) row) names ∧
    sorted_stable row (top_idxs (Z.of_nat i_sel) row).
Proof.
  split; [exact ties_ok|].
  apply recommend_sorted_stable; apply ties_ok.
Defined.

Example recommend_ties :
  (recommend no_key "A" ties_df ties_sim init_state).1 = inr (["B"; "C"], [None; None], [11; 12]%Z).
Proof. vm_compute. reflexivity. Qed.

(** C2, as stated, fails on a catalog with a repeated title: the other row
    of the same title is recommended. *)
Lemma recommend_returns_queried_title :
  "A" ∈ col_title twins_df ∧ frame_ok twins_df ∧ default_index twins_df ∧
  aligned twins_df twins_sim ∧
  recommend no_key "A" twins_df twins_sim init_state
    = (inr (["A"], [None], [(-1)%Z]), init_state) ∧
  ¬ (∀ names posters ids st',
       recommend no_key "A" twins_df twins_sim init_state
         = (inr (names, posters, ids), st') →
       length names ≤ TOP_K ∧ "A" ∉ names).
Proof.
  split_and!.
  - simpl. apply elem_of_cons. by left.
  - split; simpl; intros c [=].
  - reflexivity.
  - split; [reflexivity | repeat constructor].
  - reflexivity.
  - intros Hclaim.
    destruct (Hclaim ["A"] [None] [(-1)%Z] init_state eq_refl) as [_ Hnot].
    apply Hnot, elem_of_cons. by left.
Qed.

(** C2 (amended): for a title of a catalog whose index labels are the row
    positions, [recommend] returns at most [TOP_K] entries and never the
    queried row itself, which is the first row carrying the title; when no
    other row carries the title, no returned entry equals it. *)
Theorem recommend_at_most_K_without_query (env : Env) (title : string)
    (df : DataFrame) (sim : list (list Q)) (st : State) :
  frame_ok df → default_index df → aligned df sim → title ∈ col_title df →
  ∃ i_sel row names posters ids st',
    col_title df !! i_sel = Some title ∧
    (∀ j, col_title df !! j = Some title → i_sel ≤ j) ∧
    sim !! i_sel = Some row ∧
    recommend env title df sim st = (inr (names, posters, ids), st') ∧
    names_of df (top_idxs (Z.of_nat i_sel) row) names ∧
    length names ≤ TOP_K ∧
    (i_sel ∉ top_idxs (Z.of_nat i_sel) row) ∧
    ((∀ j, col_title df !! j = Some title → j = i_sel) → title ∉ names).
Proof.
  intros Hok Hidx Hal Hin.
  destruct (recommend_spec env title df sim st Hok Hidx Hal Hin)
    as (i_sel & row & names & posters & ids & st' & Ht & Hfirst & Hrow & _ & Hrec & Hn & _).
  exists i_sel, row, names, posters, ids, st'. split_and!; try done.
  - rewrite <- (Forall2_length _ _ _ Hn). apply top_idxs_length_le.
  - intros Hmem. by apply elem_of_top_idxs in Hmem as [? _].
  - intros Honce [k Hk]%list_elem_of_lookup_1.
    destruct (Forall2_lookup_r _ _ _ _ _ Hn Hk) as (j & Hj & Hjt).
    apply Honce in Hjt as ->.
    apply list_elem_of_lookup_2 in Hj. by apply elem_of_top_idxs in Hj as [? _].
Qed.

Lemma recommend_at_most_K_without_query_witness :
  (frame_ok ties_df ∧ default_index ties_df ∧ aligned ties_df ties_sim ∧
   "A" ∈ col_title ties_df) ∧
  ∃ i_sel row names posters ids st',
    col_title ties_df !! i_sel = Some "A" ∧
    (∀ j, col_title ties_df !! j = Some "A" → i_sel ≤ j) ∧
    ties_sim !! i_sel = Some row ∧
    recommend no_key "A" ties_df ties_sim init_state = (inr (names, posters, ids), st') ∧
    names_of ties_df (top_idxs (Z.of_nat i_sel) row) names ∧
    length names ≤ TOP_K ∧
    (i_sel ∉ top_idxs (Z.of_nat i_sel) row) ∧
    ((∀ j, col_title ties_df !! j = Some "A" → j = i_sel) → "A" ∉ names).
Proof.
  split; [exact ties_ok|].
  apply recommend_at_most_K_without_query; apply ties_ok.
Defined.

(** C3: for a title that no row of the catalog carries, [recommend] returns
    the three empty lists, raises nothing and leaves the state as it was. *)
Theorem recommend_unknown_title (env : Env) (title : string) (df : DataFrame)
    (sim : list (list Q)) (st : State) :
  title ∉ col_title df →
  recommend env title df sim st = (inr ([], [], []), st).
Proof.
  intros Hnot. unfold recommend. by rewrite (title_matches_absent df title Hnot).
Qed.

Lemma recommend_unknown_title_witness :
  ("Z" ∉ col_title ties_df) ∧
  recommend no_key "Z" ties_df ties_sim init_state = (inr ([], [], []), init_state).
Proof.
  assert (Hnot : "Z" ∉ col_title ties_df).
  { simpl. intros Hin. repeat (apply elem_of_cons in Hin as [Heq | Hin]; [discriminate Heq|]).
    by apply elem_of_nil in Hin. }
  split; [exact Hnot|].
  exact (recommend_unknown_title no_key "Z" ties_df ties_sim init_state Hnot).
Defined.

(** C4: the code fails the claim on a catalog whose index labels are not the
    row positions.  With three rows under the labels 0, 2, 3 and a 3×3
    matrix, the title "C" has the label 3, the matrix has no row 3, and
    [recommend] raises [IndexError] where the claim has two entries. *)
Lemma recommend_gapped_index_raises :
  "C" ∈ col_title gapped_df ∧
  length (col_title gapped_df) = 3 ∧
  aligned gapped_df gapped_sim ∧
  frame_ok gapped_df ∧
  title_matches gapped_df "C" = [3%Z] ∧
  recommend no_key "C" gapped_df gapped_sim init_state = (inl IndexError, init_state).
Proof.
  split_and!; try reflexivity; try apply gapped_ok.
  simpl. apply elem_of_cons. right. apply elem_of_cons. right.
  apply elem_of_cons. by left.
Qed.

(** X25: on a catalog of N rows whose index labels are the row positions,
    aligned with an N×N matrix, each of the three lists [recommend] returns
    for a title of the catalog has exactly [min TOP_K (N - 1)] entries; with
    three rows that is two. *)
Theorem recommend_length (env : Env) (title : string) (df : DataFrame)
    (sim : list (list Q)) (st : State) :
  frame_ok df → default_index df → aligned df sim → title ∈ col_title df →
  ∃ names posters ids st',
    recommend env title df sim st = (inr (names, posters, ids), st') ∧
    length names = TOP_K `min` (length (col_title df) - 1) ∧
    length posters = length names ∧
    length ids = length names ∧
    (length (col_title df) = 3 → length names = 2).
Proof.
  intros Hok Hidx Hal Hin.
  destruct (recommend_spec env title df sim st Hok Hidx Hal Hin)
    as (i_sel & row & names & posters & ids & st' & Ht & _ & Hrow & Hlen & Hrec
        & Hn & Hp & Hi & _).
  assert (Hnames : length names = TOP_K `min` (length (col_title df) - 1)).
  { rewrite <- (Forall2_length _ _ _ Hn), top_idxs_length, Hlen; [done|].
    rewrite Hlen. by eapply lookup_lt_Some. }
  exists names, posters, ids, st'. split_and!; try done.
  - by rewrite Hp, (Forall2_length _ _ _ Hn).
  - by rewrite <- (Forall2_length _ _ _ Hi), (Forall2_length _ _ _ Hn).
  - intros H3. rewrite Hnames, H3. reflexivity.
Qed.

Lemma recommend_length_witness :
  (frame_ok ties_df ∧ default_index ties_df ∧ aligned ties_df ties_sim ∧
   "A" ∈ col_title ties_df) ∧
  ∃ names posters ids st',
    recommend no_key "A" ties_df ties_sim init_state = (inr (names, posters, ids), st') ∧
    length names = TOP_K `min` (length (col_title ties_df) - 1) ∧
    length posters = length names ∧
    length ids = length names ∧
    (length (col_title ties_df) = 3 → length names = 2).
Proof.
  split; [exact ties_ok|].
  apply recommend_length; apply ties_ok.
Defined.

(** C6: in the catalog A, B, C, D, rows 0 to 3, with similarity row
    [1.0, 0.9, 0.95, 0.1] for "A", [recommend] on "A" returns "C" first and
    "B" second; "A" itself, although it has the greatest score, is left out. *)
Theorem recommend_scenario (env : Env) (df : DataFrame) (sim : list (list Q))
    (st : State) :
  index df = [0; 1; 2; 3]%Z →
  col_title df = ["A"; "B"; "C"; "D"] →
  frame_ok df →
  sim !! 0 = Some [1; 9 # 10; 95 # 100; 1 # 10]%Q →
  ∃ names posters ids st',
    recommend env "A" df sim st = (inr (names, posters, ids), st') ∧
    take 2 names = ["C"; "B"] ∧
    names = ["C"; "B"; "D"].
Proof.
  intros Hindex Htitles Hok Hrow.
  destruct (recommend_row_spec env "A" df sim st 0 []
              [1; 9 # 10; 95 # 100; 1 # 10]%Q)
    as (names & posters & ids & st' & Hrec & Hn & _); try done.
  { unfold title_matches. by rewrite Hindex, Htitles. }
  { unfold matrix_row. change 0%Z with (Z.of_nat 0).
    by rewrite (getitem_of_nat sim 0), Hrow. }
  { rewrite Htitles. simpl. lia. }
  exists names, posters, ids, st'. split; [done|].
  assert (names = ["C"; "B"; "D"]) as ->; [|done].
  change (top_idxs 0 [1; 9 # 10; 95 # 100; 1 # 10]%Q) with [2; 1; 3] in Hn.
  rewrite Htitles in Hn.
  repeat match goal with
         | H : Forall2 _ (_ :: _) _ |- _ => apply Forall2_cons_inv_l in H as (? & ? & [= <-] & H & ->)
         | H : Forall2 _ [] _ |- _ => apply Forall2_nil_inv_l in H as ->
         end.
  done.
Qed.

Lemma recommend_scenario_witness :
  (index abcd_df = [0; 1; 2; 3]%Z ∧
   col_title abcd_df = ["A"; "B"; "C"; "D"] ∧ frame_ok abcd_df ∧
   abcd_sim !! 0 = Some [1; 9 # 10; 95 # 100; 1 # 10]%Q) ∧
  ∃ names posters ids st',
    recommend no_key "A" abcd_df abcd_sim init_state = (inr (names, posters, ids), st') ∧
    take 2 names = ["C"; "B"] ∧
    names = ["C"; "B"; "D"].
Proof.
  assert (Hok : frame_ok abcd_df).
  { split; simpl; intros c [= <-]; reflexivity. }
  split; [by split_and!|].
  by apply recommend_scenario.
Defined.

(** What a loop that returns has appended: for each index, in order, the
    title of the row to the names, one poster, and to the identifiers the
    cell of the identifier column or [-1]. *)
Lemma recommend_loop_returned (env : Env) (df : DataFrame) (id_col : option string)
    (idxs : list nat) :
  ∀ names0 posters0 ids0 st names posters ids st',
    recommend_loop env df id_col idxs (names0, posters0, ids0) st
      = (inr (names, posters, ids), st') →
    ∃ n p i,
      names = names0 ++ n ∧ posters = posters0 ++ p ∧ ids = ids0 ++ i ∧
      names_of df idxs n ∧
      length p = length idxs ∧
      Forall2 (λ idx z, match id_col with
                        | Some c => ∃ row, iloc df idx = inr row ∧ row_int row c = inr z
                        | None => z = (-1)%Z
                        end) idxs i.
Proof.
  induction idxs as [|idx idxs IH]; intros names0 posters0 ids0 st names posters ids st'.
  { simpl. unfold ret. intros [= <- <- <- <-]. exists [], [], [].
    rewrite !app_nil_r. split_and!; try done; constructor. }
  rewrite recommend_loop_cons. destruct (iloc df idx) as [e | row] eqn:Hiloc; [done|].
  assert (Htitle : col_title df !! idx = Some (row_title row)).
  { unfold iloc in Hiloc. destruct (col_title df !! idx) as [t|]; [|done].
    by injection Hiloc as <-. }
  destruct id_col as [c|].
  - destruct (row_int row c) as [e | z] eqn:Hint; [done|].
    destruct (fetch_poster_returns env z st) as (v & st1 & -> & _).
    intros Hloop. destruct (IH _ _ _ _ _ _ _ _ Hloop) as (n & p & i & -> & -> & -> & Hn & Hp & Hi).
    exists (row_title row :: n), (v :: p), (z :: i).
    rewrite <- !app_assoc. split_and!; try done.
    + by constructor.
    + simpl. by rewrite Hp.
    + constructor; [by exists row | done].
  - intros Hloop. destruct (IH _ _ _ _ _ _ _ _ Hloop) as (n & p & i & -> & -> & -> & Hn & Hp & Hi).
    exists (row_title row :: n), (None :: p), ((-1)%Z :: i).
    rewrite <- !app_assoc. split_and!; try done.
    + by constructor.
    + simpl. by rewrite Hp.
    + by constructor.
Qed.

Lemma recommend_returned (env : Env) (title : string) (df : DataFrame)
    (sim : list (list Q)) (st st' : State) (names : list string)
    (posters : list (option string)) (ids : list Z) :
  recommend env title df sim st = (inr (names, posters, ids), st') →
  names_of df (accepted title df sim) names ∧
  length posters = length (accepted title df sim) ∧
  Forall2 (λ idx z, match id_col_of df with
                    | Some c => ∃ row, iloc df idx = inr row ∧ row_int row c = inr z
                    | None => z = (-1)%Z
                    end) (accepted title df sim) ids.
Proof.
  unfold recommend, accepted.
  destruct (title_matches df title) as [|i_sel rest].
  { unfold ret. intros [= <- <- <- <-]. split_and!; try done; constructor. }
  unfold bind, lift. destruct (matrix_row sim i_sel) as [e | row]; simpl; [done|].
  intros Hloop.
  destruct (recommend_loop_returned _ _ _ _ _ _ _ _ _ _ _ _ Hloop)
    as (n & p & i & -> & -> & -> & Hn & Hp & Hi).
  done.
Qed.

(** C9: whatever the input, when [recommend] returns, each index its loop
    went through has given one element to each of the three lists: the names
    are the titles of the rows at these indices, in order, and the posters
    and the identifiers are as many. *)
Theorem recommend_lists_same_length (env : Env) (title : string) (df : DataFrame)
    (sim : list (list Q)) (st : State) :
  match recommend env title df sim st with
  | (inr (names, posters, ids), _) =>
      names_of df (accepted title df sim) names ∧
      length names = length (accepted title df sim) ∧
      length posters = length (accepted title df sim) ∧
      length ids = length (accepted title df sim)
  | (inl _, _) => True
  end.
Proof.
  destruct (recommend env title df sim st) as [[e | [[names posters] ids]] st'] eqn:Hrec;
    [done|].
  destruct (recommend_returned _ _ _ _ _ _ _ _ _ Hrec) as (Hn & Hp & Hi).
  split_and!; [done | | done |].
  - by rewrite <- (Forall2_length _ _ _ Hn).
  - by rewrite <- (Forall2_length _ _ _ Hi).
Qed.

Example recommend_accepted_ties :
  accepted "A" ties_df ties_sim = [1; 2] ∧ accepted "Z" ties_df ties_sim = [].
Proof. split; vm_compute; reflexivity. Qed.

(** C10: the code fails the claim on a catalog whose index labels are not
    the row positions.  Without identifier columns, three rows under the
    labels 0, 2, 3 and a 3×3 matrix, the title "C" has the label 3 and
    [recommend] raises [IndexError]; for "B", label 2, it returns the titles
    ranked by the row of "C", with "B" itself among them. *)
Lemma recommend_gapped_index_without_ids :
  ("movie_id" ∉ columns gapped_bare_df) ∧ ("id" ∉ columns gapped_bare_df) ∧
  aligned gapped_bare_df gapped_sim ∧
  "C" ∈ col_title gapped_bare_df ∧
  recommend no_key "C" gapped_bare_df gapped_sim init_state
    = (inl IndexError, init_state) ∧
  recommend no_key "B" gapped_bare_df gapped_sim init_state
    = (inr (["A"; "B"], [None; None], [(-1)%Z; (-1)%Z]), init_state).
Proof.
  assert (Hcols : ∀ c : string, c ≠ "title" → c ∉ columns gapped_bare_df).
  { intros c Hc Hin. apply elem_of_cons in Hin as [Heq | Hin]; [done|].
    by apply elem_of_nil in Hin. }
  split_and!; try reflexivity.
  - by apply Hcols.
  - by apply Hcols.
  - split; [reflexivity | repeat constructor].
  - simpl. apply elem_of_cons. right. apply elem_of_cons. right.
    apply elem_of_cons. by left.
Qed.

(** X26: on a catalog whose index labels are the row positions and which
    has neither a "movie_id" nor an "id" column, aligned with its matrix,
    [recommend] returns for a title of the catalog the ranked titles, with
    [-1] as every identifier and no poster, and asks nothing of the metadata
    service. *)
Theorem recommend_without_id_column (env : Env) (title : string) (df : DataFrame)
    (sim : list (list Q)) (st : State) :
  ("movie_id" ∉ columns df) → ("id" ∉ columns df) →
  default_index df → aligned df sim → title ∈ col_title df →
  ∃ i_sel row names,
    col_title df !! i_sel = Some title ∧
    sim !! i_sel = Some row ∧
    names_of df (top_idxs (Z.of_nat i_sel) row) names ∧
    recommend env title df sim st
      = (inr (names, replicate (length names) None,
              replicate (length names) (-1)%Z), st).
Proof.
  intros Hm Hi Hidx Hal Hin.
  assert (col_movie_id df = None ∧ col_id df = None) as [Hm' Hi'].
  { unfold columns in Hm, Hi.
    destruct (col_movie_id df), (col_id df); simpl in *; try done;
      exfalso; (apply Hm || apply Hi); set_solver. }
  assert (Hok : frame_ok df).
  { split; intros c; rewrite ?Hm', ?Hi'; done. }
  assert (Hcol : id_column df = None).
  { unfold id_column. by rewrite Hm', Hi'. }
  destruct (recommend_spec env title df sim st Hok Hidx Hal Hin)
    as (i_sel & row & names & posters & ids & st' & Ht & _ & Hrow & _ & Hrec
        & Hn & _ & Hids & Hnone).
  destruct (Hnone Hcol) as [-> ->].
  rewrite Hcol in Hids. apply Forall2_id_at_None in Hids as ->.
  exists i_sel, row, names. split_and!; try done.
  by rewrite <- (Forall2_length _ _ _ Hn).
Qed.

Lemma recommend_without_id_column_witness :
  (("movie_id" ∉ columns bare_df) ∧ ("id" ∉ columns bare_df) ∧
   default_index bare_df ∧ aligned bare_df ties_sim ∧ "A" ∈ col_title bare_df) ∧
  ∃ i_sel row names,
    col_title bare_df !! i_sel = Some "A" ∧
    ties_sim !! i_sel = Some row ∧
    names_of bare_df (top_idxs (Z.of_nat i_sel) row) names ∧
    recommend no_key "A" bare_df ties_sim init_state
      = (inr (names, replicate (length names) None,
              replicate (length names) (-1)%Z), init_state).
Proof.
  assert (H1 : "movie_id" ∉ columns bare_df).
  { intros Hin. apply elem_of_cons in Hin as [Heq | Hin]; [discriminate Heq|].
    by apply elem_of_nil in Hin. }
  assert (H2 : "id" ∉ columns bare_df).
  { intros Hin. apply elem_of_cons in Hin as [Heq | Hin]; [discriminate Heq|].
    by apply elem_of_nil in Hin. }
  assert (H0 : default_index bare_df) by reflexivity.
  assert (H3 : aligned bare_df ties_sim).
  { split; [reflexivity | repeat constructor]. }
  assert (H4 : "A" ∈ col_title bare_df).
  { simpl. apply elem_of_cons. by left. }
  split; [by split_and!|].
  by apply recommend_without_id_column.
Defined.

(** ** The caches over the life of the process *)

Lemma caches_sound_init (env : Env) : caches_sound env init_state.
Proof. split; intros *; simpl; by rewrite lookup_empty. Qed.

Lemma caches_sound_tick (env : Env) (d : nat) (st : State) :
  caches_sound env st → caches_sound env (tick d st).
Proof.
  intros [Hp Hg]. split; simpl.
  - intros id t v Hl. destruct (Hp id t v Hl). split; [lia | done].
  - intros g p t v Hl. destruct (Hg g p t v Hl). split; [lia | done].
Qed.

Lemma fetch_poster_sound (env : Env) (movie_id : Z) (st : State) :
  caches_sound env st →
  fetch_poster env movie_id st
    = (inr (fetch_poster_body env (poster_time st movie_id) movie_id),
       (fetch_poster env movie_id st).2) ∧
  poster_time st movie_id ≤ now st ∧
  caches_sound env (fetch_poster env movie_id st).2.
Proof.
  intros [Hp Hg]. unfold fetch_poster, poster_time, cache_get.
  destruct (poster_cache st !! movie_id) as [[t v]|] eqn:Hl.
  - destruct (Hp _ _ _ Hl) as [Ht ->]. case_decide; simpl.
    + by split_and!.
    + split_and!; [done | done |]. split; simpl; [|done].
      intros id t' v'. rewrite lookup_insert. case_decide.
      * intros [= <- <-]. by subst id.
      * apply Hp.
  - simpl. split_and!; [done | done |]. split; simpl; [|done].
    intros id t' v'. rewrite lookup_insert. case_decide.
    + intros [= <- <-]. by subst id.
    + apply Hp.
Qed.

Lemma fetch_by_genre_sound (env : Env) (genre_id page : Z) (st : State) :
  caches_sound env st →
  fetch_by_genre env genre_id page st
    = (inr (fetch_by_genre_body env (page_time st genre_id page) genre_id page),
       (fetch_by_genre env genre_id page st).2) ∧
  page_time st genre_id page ≤ now st ∧
  caches_sound env (fetch_by_genre env genre_id page st).2.
Proof.
  intros [Hp Hg]. unfold fetch_by_genre, page_time, cache_get.
  destruct (genre_cache st !! (genre_id, page)) as [[t v]|] eqn:Hl.
  - destruct (Hg _ _ _ _ Hl) as [Ht ->]. case_decide; simpl.
    + by split_and!.
    + split_and!; [done | done |]. split; simpl; [done|].
      intros g p t' v'. rewrite lookup_insert. case_decide.
      * intros [= <- <-]. by simplify_eq.
      * apply Hg.
  - simpl. split_and!; [done | done |]. split; simpl; [done|].
    intros g p t' v'. rewrite lookup_insert. case_decide.
    + intros [= <- <-]. by simplify_eq.
    + apply Hg.
Qed.

Lemma recommend_loop_preserves (P : State → Prop) (env : Env) (df : DataFrame)
    (id_col : option string) (idxs : list nat) :
  (∀ movie_id st, P st → P (fetch_poster env movie_id st).2) →
  ∀ acc st, P st → P (recommend_loop env df id_col idxs acc st).2.
Proof.
  intros Hfetch. induction idxs as [|i idxs IH]; intros [[names posters] ids] st Hst.
  { done. }
  simpl. unfold bind at 1. destruct (iloc df i) as [e | row]; simpl; [done|].
  destruct id_col as [c|]; [|by apply IH].
  unfold bind at 1. destruct (row_int row c) as [e | z]; simpl; [done|].
  unfold bind at 1. specialize (Hfetch z st Hst).
  destruct (fetch_poster_returns env z st) as (v & st1 & Heq & _).
  rewrite Heq in Hfetch |- *. by apply IH.
Qed.

Lemma recommend_preserves (P : State → Prop) (env : Env) (title : string)
    (df : DataFrame) (sim : list (list Q)) (st : State) :
  (∀ movie_id st, P st → P (fetch_poster env movie_id st).2) →
  P st → P (recommend env title df sim st).2.
Proof.
  intros Hfetch Hst. unfold recommend.
  destruct (title_matches df title) as [|i_sel rest]; [done|].
  unfold bind. destruct (matrix_row sim i_sel) as [e | row]; simpl; [done|].
  by apply recommend_loop_preserves.
Qed.

(** What the handler does in a state with sound caches. *)
Lemma show_genre_sound (env : Env) (gid : Z) (st : State) :
  caches_sound env st →
  show_genre env gid st
    = (inr (shown (take TOP_K (service_page env (page_time st gid 1) gid 1 ++
                               service_page env (page_time st gid 2) gid 2))),
       (show_genre env gid st).2) ∧
  caches_sound env (show_genre env gid st).2.
Proof.
  intros Hst. unfold show_genre, bind.
  destruct (fetch_by_genre_sound env gid 1 st Hst) as (-> & _ & Hst1).
  set (st1 := (fetch_by_genre env gid 1 st).2) in *.
  assert (Htime : page_time st1 gid 2 = page_time st gid 2).
  { unfold st1, fetch_by_genre, page_time.
    destruct (cache_get _ _ _ _); simpl; [done|].
    by rewrite lookup_insert_ne. }
  destruct (fetch_by_genre_sound env gid 2 st1 Hst1) as (-> & _ & Hst2).
  rewrite Htime. unfold service_page.
  destruct (or_nil _ ++ or_nil _) as [|m results]; simpl; by split.
Qed.

Lemma run_sound (env : Env) (history : list action) :
  caches_sound env (run env history).
Proof.
  unfold run. induction history as [|a history IH] using rev_ind.
  { apply caches_sound_init. }
  rewrite foldl_app. simpl. destruct a; simpl.
  - by apply caches_sound_tick.
  - by apply fetch_poster_sound.
  - by apply fetch_by_genre_sound.
  - apply recommend_preserves; [|done]. intros id st Hst. by apply fetch_poster_sound.
  - by apply show_genre_sound.
Qed.

Lemma service_page_results (env : Env) (t : nat) (genre_id page : Z) :
  service_page env t genre_id page = service_results env t genre_id page.
Proof.
  unfold service_page, service_results, fetch_by_genre_body, answered.
  destruct (credential env) as [key|]; [|done].
  destruct (discover_movie (tmdb env) t key genre_id page) as [|[| |results]];
    try done.
  by destruct results.
Qed.

(** C7: at any point of the life of the process, the cards the handler
    shows are made, one each and in order, from the first [TOP_K] movies of
    the [results] the service answered for page 1 followed by those it
    answered for page 2 (each answer taken when the page was last asked for,
    within the lifetime of the cache); when the service holds no movie for
    either page it shows no card and the notice, and in no case does it
    raise. *)
Theorem show_genre_first_K (env : Env) (history : list action) (gid : Z) :
  let st := run env history in
  let page1 := service_results env (page_time st gid 1) gid 1 in
  let page2 := service_results env (page_time st gid 2) gid 2 in
  ∃ view st',
    show_genre env gid st = (inr view, st') ∧
    view_cards view = map card_of (take TOP_K (page1 ++ page2)) ∧
    (view_notice view = Some GENRE_NOTICE ↔ page1 = [] ∧ page2 = []) ∧
    (view_notice view = None ↔ page1 ++ page2 ≠ []).
Proof.
  intros st page1 page2.
  destruct (show_genre_sound env gid st (run_sound env history)) as [Heq _].
  rewrite !service_page_results in Heq. fold st page1 page2 in Heq.
  eexists _, _. split; [exact Heq|].
  destruct (page1 ++ page2) as [|m results] eqn:Happ.
  - apply app_eq_nil in Happ as [-> ->]. simpl. split_and!; [done | done |].
    split; done.
  - simpl. split_and!; [done | |done].
    split; [done|]. intros [-> ->]. done.
Qed.

Example show_genre_two_pages :
  (show_genre with_key 28 init_state).1
  = inr (Cards [mkCard (Some 29%Z) "T" None (Some "https://www.themoviedb.org/movie/29");
                mkCard (Some 30%Z) "T" None (Some "https://www.themoviedb.org/movie/30")]).
Proof. vm_compute. reflexivity. Qed.

Example show_genre_nothing :
  (show_genre no_key 28 init_state).1 = inr (Warning GENRE_NOTICE).
Proof. vm_compute. reflexivity. Qed.

(** C8: in a process whose credential is absent ([None] or the empty
    string), whatever happened before, the poster lookup returns [None] and
    the genre listing returns the empty list, for every identifier and page,
    and neither raises. *)
Theorem no_credential_returns_empty (env : Env) (history : list action)
    (movie_id genre_id page : Z) :
  TMDB_API_KEY env = None ∨ TMDB_API_KEY env = Some "" →
  ∃ st1 st2,
    fetch_poster env movie_id (run env history) = (inr None, st1) ∧
    fetch_by_genre env genre_id page (run env history) = (inr (Some []), st2).
Proof.
  intros Hkey.
  assert (Hcred : credential env = None).
  { unfold credential. by destruct Hkey as [-> | ->]. }
  destruct (fetch_poster_sound env movie_id _ (run_sound env history)) as (Hp & _).
  destruct (fetch_by_genre_sound env genre_id page _ (run_sound env history)) as (Hg & _).
  unfold fetch_poster_body in Hp. unfold fetch_by_genre_body in Hg.
  rewrite Hcred in Hp, Hg. eauto.
Qed.

Lemma no_credential_returns_empty_witness :
  (TMDB_API_KEY no_key = None ∨ TMDB_API_KEY no_key = Some "") ∧
  ∃ st1 st2,
    fetch_poster no_key 550 (run no_key [ShowGenre 28; Tick 60; FetchPoster 550])
      = (inr None, st1) ∧
    fetch_by_genre no_key 28 1 (run no_key [ShowGenre 28; Tick 60; FetchPoster 550])
      = (inr (Some []), st2).
Proof.
  split; [by left|].
  apply no_credential_returns_empty. by left.
Defined.

(** ** What [recommend] depends on *)

Lemma recommend_loop_agree (env1 env2 : Env) (df : DataFrame)
    (id_col : option string) (idxs : list nat) :
  ∀ names posters1 posters2 ids st1 st2,
    length posters1 = length posters2 →
    agree_when_returned
      (recommend_loop env1 df id_col idxs (names, posters1, ids) st1).1
      (recommend_loop env2 df id_col idxs (names, posters2, ids) st2).1.
Proof.
  induction idxs as [|i idxs IH]; intros names posters1 posters2 ids st1 st2 Hlen.
  { by simpl. }
  rewrite !recommend_loop_cons. destruct (iloc df i) as [e | row]; [done|].
  destruct id_col as [c|].
  - destruct (row_int row c) as [e | z]; [done|].
    destruct (fetch_poster_returns env1 z st1) as (v1 & st1' & -> & _).
    destruct (fetch_poster_returns env2 z st2) as (v2 & st2' & -> & _).
    apply IH. rewrite !length_app. simpl. lia.
  - apply IH. rewrite !length_app. simpl. lia.
Qed.

Lemma recommend_agree (env1 env2 : Env) (title : string) (df : DataFrame)
    (sim : list (list Q)) (st1 st2 : State) :
  agree_when_returned (recommend env1 title df sim st1).1 (recommend env2 title df sim st2).1.
Proof.
  unfold recommend. destruct (title_matches df title) as [|i_sel rest]; [done|].
  unfold bind. destruct (matrix_row sim i_sel) as [e | row]; simpl; [done|].
  by apply recommend_loop_agree.
Qed.

(** C5, as stated, fails: the posters [recommend] returns also depend on
    the credential, on the answers of the metadata service and on the poster
    cache.  The same call gives other posters with and without a credential,
    and again a day later once the service is down. *)
Lemma recommend_output_varies :
  let first := recommend with_key "A" ties_df ties_sim init_state in
  let later := recommend with_key "A" ties_df ties_sim (tick POSTER_TTL first.2) in
  first.1 = inr (["B"; "C"],
                 [Some "https://image.tmdb.org/t/p/w500/a.jpg";
                  Some "https://image.tmdb.org/t/p/w500/a.jpg"], [11; 12]%Z) ∧
  later.1 = inr (["B"; "C"], [None; None], [11; 12]%Z) ∧
  (recommend no_key "A" ties_df ties_sim init_state).1
    = inr (["B"; "C"], [None; None], [11; 12]%Z) ∧
  first.1 ≠ later.1 ∧
  first.1 ≠ (recommend no_key "A" ties_df ties_sim init_state).1.
Proof.
  vm_compute. split_and!; try reflexivity; discriminate.
Qed.

(** ** [recommend] on references changes no object it was given *)

Lemma recommend_ref_preserved (env : Env) (title : string) (movies_df sim : loc)
    (h : gmap loc object) (st : State) :
  preserved h (recommend_ref env title movies_df sim h st).2.
Proof.
  assert (Hfresh : ∀ o, preserved h (alter sort_in_place (fresh (dom h))
                                          (<[fresh (dom h) := o]> h))).
  { intros o l o' Hl.
    assert (l ≠ fresh (dom h)).
    { intros ->. apply (is_fresh (dom h)). apply elem_of_dom. eauto. }
    by rewrite lookup_alter_ne, lookup_insert_ne. }
  unfold recommend_ref. cbv zeta.
  repeat case_match; simpl; solve [by unfold preserved | apply Hfresh].
Qed.

Lemma getitem_Forall2 {A B : Type} (P : A → B → Prop) (l : list A) (k : list B)
    (i : Z) :
  Forall2 P l k →
  match getitem l i, getitem k i with
  | inr x, inr y => P x y
  | inl e, inl e' => e = e'
  | _, _ => False
  end.
Proof.
  intros Hall. unfold getitem. rewrite <- (Forall2_length _ _ _ Hall).
  set (j := if decide (i < 0)%Z then (i + Z.of_nat (length l))%Z else i).
  destruct (decide (j < 0)%Z); [done|].
  destruct (l !! Z.to_nat j) as [x|] eqn:Hx.
  - by destruct (Forall2_lookup_l _ _ _ _ _ Hall Hx) as (y & -> & Hxy).
  - assert (k !! Z.to_nat j = None) as ->; [|done].
    apply lookup_ge_None. rewrite <- (Forall2_length _ _ _ Hall).
    by apply lookup_ge_None.
Qed.

Lemma recommend_ref_refines (env : Env) (title : string) (movies_df sim_ref : loc)
    (h : gmap loc object) (st : State) (df : DataFrame) (sim : list (list Q)) :
  h !! movies_df = Some (Frame df) →
  matrix_at h sim_ref = Some sim →
  (recommend_ref env title movies_df sim_ref h st).1 = recommend env title df sim st.
Proof.
  intros Hdf Hsim. unfold matrix_at in Hsim.
  destruct (h !! sim_ref) as [[| rows | |]|] eqn:Hrows; try done.
  apply mapM_Some in Hsim.
  unfold recommend_ref, recommend. rewrite Hdf.
  destruct (title_matches df title) as [|i_sel rest]; [done|].
  rewrite Hrows. unfold bind, lift, matrix_row.
  pose proof (getitem_Forall2 _ _ _ i_sel Hsim) as Hget.
  destruct (getitem rows i_sel) as [e | r], (getitem sim i_sel) as [e' | row];
    try done.
  - by subst e'.
  - unfold scores_at in Hget.
    destruct (h !! r) as [[| | row' |]|]; try done. injection Hget as ->.
    rewrite lookup_alter_eq, lookup_insert_eq. simpl. reflexivity.
Qed.

Lemma matrix_at_preserved (h h' : gmap loc object) (m : loc) (sim : list (list Q)) :
  preserved h h' → matrix_at h m = Some sim → matrix_at h' m = Some sim.
Proof.
  intros Hpre. unfold matrix_at.
  destruct (h !! m) as [[| rows | |]|] eqn:Hm; try done.
  rewrite (Hpre _ _ Hm). rewrite !mapM_Some. intros Hall.
  eapply Forall2_impl; [exact Hall|]. clear Hall.
  intros r row. unfold scores_at.
  destruct (h !! r) as [[| | row' |]|] eqn:Hr; try done.
  by rewrite (Hpre _ _ Hr).
Qed.

(** C5 (amended): given [TOP_K], the names and identifiers [recommend]
    returns are determined by the title, the catalog and the matrix alone:
    any two calls that return give the same names and identifiers; the
    posters also depend on the credential, the metadata service and the
    poster cache.  A call changes no object that existed before it, so the
    catalog and the matrix are as they were; of the state of the process it
    can change the poster cache only. *)
Theorem recommend_names_ids_pure (env env' : Env) (title : string)
    (movies_df sim_ref : loc) (h : gmap loc object) (st st' : State)
    (df : DataFrame) (sim : list (list Q)) :
  h !! movies_df = Some (Frame df) →
  matrix_at h sim_ref = Some sim →
  let out := recommend_ref env title movies_df sim_ref h st in
  out.1 = recommend env title df sim st ∧
  agree_when_returned out.1.1 (recommend env' title df sim st').1 ∧
  preserved h out.2 ∧
  out.2 !! movies_df = Some (Frame df) ∧
  matrix_at out.2 sim_ref = Some sim ∧
  now out.1.2 = now st ∧
  genre_cache out.1.2 = genre_cache st.
Proof.
  intros Hdf Hsim out.
  assert (Hout : out.1 = recommend env title df sim st).
  { by apply recommend_ref_refines. }
  assert (Hpre : preserved h out.2).
  { apply recommend_ref_preserved. }
  assert (Hst : now out.1.2 = now st ∧ genre_cache out.1.2 = genre_cache st).
  { rewrite Hout.
    apply (recommend_preserves
             (λ s, now s = now st ∧ genre_cache s = genre_cache st)); [|done].
    intros id s [Hn Hg].
    destruct (fetch_poster_returns env id s) as (v & s' & -> & Hn' & Hg').
    simpl. by rewrite Hn', Hg'. }
  split_and!; try done; try apply Hst.
  - rewrite Hout. apply recommend_agree.
  - by apply Hpre.
  - by eapply matrix_at_preserved.
Qed.

Lemma recommend_names_ids_pure_witness :
  (ties_store !! 0 = Some (Frame ties_df) ∧ matrix_at ties_store 1 = Some ties_sim) ∧
  let out := recommend_ref with_key "A" 0 1 ties_store init_state in
  out.1 = recommend with_key "A" ties_df ties_sim init_state ∧
  agree_when_returned out.1.1 (recommend no_key "A" ties_df ties_sim (tick 5 init_state)).1 ∧
  preserved ties_store out.2 ∧
  out.2 !! 0 = Some (Frame ties_df) ∧
  matrix_at out.2 1 = Some ties_sim ∧
  now out.1.2 = now init_state ∧
  genre_cache out.1.2 = genre_cache init_state.
Proof.
  assert (H1 : ties_store !! 0 = Some (Frame ties_df)) by reflexivity.
  assert (H2 : matrix_at ties_store 1 = Some ties_sim) by reflexivity.
  split; [by split|].
  by apply recommend_names_ids_pure.
Defined.

(** ** More on the ranking *)

(** X1: the cut at [TOP_K] keeps the best: an index left out is outranked
    by every index kept. *)
Lemma top_idxs_best (i_sel : Z) (row : list Q) (a b : nat) :
  a ∈ top_idxs i_sel row →
  b < length row → Z.of_nat b ≠ i_sel → b ∉ top_idxs i_sel row →
  outranks row a b.
Proof.
  rewrite top_idxs_unfold. intros ([a' sa] & -> & Ha)%list_elem_of_fmap Hb Hne Hnot.
  destruct (lookup_lt_is_Some_2 _ _ Hb) as [sb Hsb].
  assert (Hin : (b, sb) ∈ ranked_others i_sel row) by by apply elem_of_ranked_others.
  pose proof (ranked_others_sorted i_sel row) as Hs.
  rewrite <- (take_drop TOP_K (ranked_others i_sel row)) in Hin, Hs.
  apply StronglySorted_app in Hs as (Hcross & _ & _).
  apply elem_of_app in Hin as [Hin | Hin].
  - exfalso. apply Hnot. apply list_elem_of_fmap. by exists (b, sb).
  - exact (Hcross _ _ Ha Hin).
Qed.

(** Whatever algorithm [list.sort] runs, a stable descending sort of the
    enumerated row can only give [sorted_sims]: the ranking order leaves no
    choice. *)
Lemma sorted_sims_unique (row : list Q) (l : list (nat * Q)) :
  l ≡ₚ enumerate row →
  StronglySorted (ranked_before snd fst) l →
  l = sorted_sims row.
Proof.
  intros Hperm Hs.
  apply (StronglySorted_unique_strong (ranked_before snd fst)).
  - intros [a sa] [b sb] _ _ [Hlt | [Heq Hpos]] [Hlt' | [Heq' Hpos']]; simpl in *.
    + exfalso. exact (Qlt_irrefl _ (Qlt_trans _ _ _ Hlt Hlt')).
    + exfalso. rewrite Heq' in Hlt. exact (Qlt_irrefl _ Hlt).
    + exfalso. rewrite Heq in Hlt'. exact (Qlt_irrefl _ Hlt').
    + lia.
  - done.
  - apply sorted_sims_ranked.
  - by rewrite sorted_sims_perm.
Qed.

(** A label of the select box leads to the handler of its genre. *)
Example on_show_genre_action (env : Env) (st : State) :
  on_show_genre env "Action" st = show_genre env 28 st.
Proof. reflexivity. Qed.

(** * More properties of the code *)

(** ** The ranking *)

Lemma top_idxs_best_witness :
  (7 ∈ top_idxs 0 long_row ∧ 1 < length long_row ∧ Z.of_nat 1 ≠ 0%Z ∧
   (1 ∉ top_idxs 0 long_row)) ∧
  outranks long_row 7 1.
Proof.
  assert (Htop : top_idxs 0 long_row = [7; 6; 5; 4; 3]) by (vm_compute; reflexivity).
  assert (H1 : 7 ∈ top_idxs 0 long_row).
  { rewrite Htop. apply elem_of_cons. by left. }
  assert (H2 : 1 < length long_row) by (simpl; lia).
  assert (H3 : 1 ∉ top_idxs 0 long_row).
  { rewrite Htop. intros Hin.
    repeat (apply elem_of_cons in Hin as [Heq | Hin]; [discriminate Heq|]).
    by apply elem_of_nil in Hin. }
  split; [by split_and!|].
  apply (top_idxs_best 0 long_row 7 1); [exact H1 | exact H2 | lia | exact H3].
Defined.

Lemma outranks_irrefl (row : list Q) (a : nat) : ¬ outranks row a a.
Proof.
  intros (sa & sb & Ha & Hb & Hord). rewrite Ha in Hb. injection Hb as <-.
  destruct Hord as [Hlt | [_ Hlt]]; [by apply Qlt_irrefl in Hlt | lia].
Qed.

Lemma StronglySorted_irrefl_NoDup {A : Type} (R : relation A) (l : list A) :
  (∀ x, ¬ R x x) → StronglySorted R l → NoDup l.
Proof.
  intros Hirr. induction 1 as [|x l Hl IH Hx]; constructor; [|done].
  intros Hin. rewrite Forall_forall in Hx. exact (Hirr x (Hx x Hin)).
Qed.

(** X2: the ranking never lists a row twice, lists only rows the
    similarity row has a score for, and never the selected row. *)
Theorem top_idxs_distinct_in_range (i_sel : Z) (row : list Q) :
  NoDup (top_idxs i_sel row) ∧
  Forall (λ j, j < length row ∧ Z.of_nat j ≠ i_sel) (top_idxs i_sel row).
Proof.
  split.
  - apply (StronglySorted_irrefl_NoDup (outranks row)).
    + apply outranks_irrefl.
    + apply top_idxs_sorted.
  - apply Forall_forall. intros j Hj. apply elem_of_top_idxs in Hj. tauto.
Qed.

Lemma enumerate_from_fmap {A B : Type} (f : A → B) (n : nat) (xs : list A) :
  enumerate_from n (f <$> xs) = prod_map id f <$> enumerate_from n xs.
Proof.
  revert n. induction xs as [|x xs IH]; intros n; simpl; [done|].
  by rewrite IH.
Qed.

Lemma filter_fst_prod_map {A B : Type} (P : nat → Prop) `{!∀ j, Decision (P j)}
    (f : A → B) (l : list (nat * A)) :
  (filter (λ p : nat * B, P p.1) (prod_map id f <$> l)).*1
  = (filter (λ p : nat * A, P p.1) l).*1.
Proof.
  induction l as [|[j x] l IH]; [done|].
  rewrite fmap_cons, !filter_cons. simpl.
  destruct (decide (P j)); [|exact IH].
  rewrite !fmap_cons. simpl. f_equal. exact IH.
Qed.

Lemma sorted_sims_fmap (f : Q → Q) (row : list Q) :
  (∀ a b, (a < b)%Q → (f a < f b)%Q) →
  (∀ a b, (a == b)%Q → (f a == f b)%Q) →
  sorted_sims (f <$> row) = prod_map id f <$> sorted_sims row.
Proof.
  intros Hlt Heq. symmetry. apply sorted_sims_unique.
  - rewrite sorted_sims_perm. unfold enumerate. by rewrite enumerate_from_fmap.
  - apply (StronglySorted_fmap _ (ranked_before snd fst)); [|apply sorted_sims_ranked].
    intros [a sa] [b sb] [H | [H Hpos]]; simpl in *.
    + left. simpl. by apply Hlt.
    + right. simpl. split; [by apply Heq | done].
Qed.

(** X3: the ranking depends on the order of the scores only: a change of
    scale that keeps the order (a shift, a positive factor), also one that
    makes scores negative, gives the same ranking. *)
Theorem top_idxs_order_only (f : Q → Q) (i_sel : Z) (row : list Q) :
  (∀ a b, (a < b)%Q → (f a < f b)%Q) →
  (∀ a b, (a == b)%Q → (f a == f b)%Q) →
  top_idxs i_sel (map f row) = top_idxs i_sel row.
Proof.
  intros Hlt Heq. unfold top_idxs.
  change (map f row) with (f <$> row).
  rewrite (sorted_sims_fmap f row Hlt Heq).
  f_equal. exact (filter_fst_prod_map (λ j, Z.of_nat j ≠ i_sel) f (sorted_sims row)).
Qed.

Lemma top_idxs_order_only_witness :
  ((∀ a b, (a < b)%Q → (shift_down a < shift_down b)%Q) ∧
   (∀ a b, (a == b)%Q → (shift_down a == shift_down b)%Q)) ∧
  top_idxs 0 (map shift_down long_row) = top_idxs 0 long_row.
Proof.
  assert (H1 : ∀ a b, (a < b)%Q → (shift_down a < shift_down b)%Q).
  { intros a b Hab. unfold shift_down. by apply Qplus_lt_l. }
  assert (H2 : ∀ a b, (a == b)%Q → (shift_down a == shift_down b)%Q).
  { intros a b Hab. unfold shift_down. by rewrite Hab. }
  split; [by split|].
  by apply top_idxs_order_only.
Defined.

(** ** [recommend] *)

Lemma iloc_row_int (df : DataFrame) (idx : nat) (row : Row) (c : string) (z : Z) :
  iloc df idx = inr row → row_int row c = inr z →
  col_title df !! idx = Some (row_title row) ∧
  ∃ cells, id_col_cells df (Some c) = Some cells ∧ cells !! idx = Some z.
Proof.
  unfold iloc, row_int, id_col_cells.
  destruct (col_title df !! idx) as [t|]; [|done]. intros [= <-]. simpl.
  split; [done|].
  destruct (String.eqb c "movie_id").
  - destruct (col_movie_id df) as [cells|]; simpl in *; [|done].
    destruct (cells !! idx) as [z'|] eqn:Hz; [|done].
    injection H as <-. by exists cells.
  - destruct (col_id df) as [cells|]; simpl in *; [|done].
    destruct (cells !! idx) as [z'|] eqn:Hz; [|done].
    injection H as <-. by exists cells.
Qed.

(** X4: whenever [recommend] returns, each identifier is the cell of the
    identifier column on the row whose title is returned at the same place;
    the column is "movie_id" when the catalog has one, also when it has an
    "id" column too, and "id" otherwise. *)
Theorem recommend_ids_of_rows (env : Env) (title : string) (df : DataFrame)
    (sim : list (list Q)) (st st' : State) (names : list string)
    (posters : list (option string)) (ids : list Z) (c : list Z) :
  recommend env title df sim st = (inr (names, posters, ids), st') →
  col_movie_id df = Some c ∨ (col_movie_id df = None ∧ col_id df = Some c) →
  length ids = length names ∧
  ∀ k name z, names !! k = Some name → ids !! k = Some z →
    ∃ i, col_title df !! i = Some name ∧ c !! i = Some z.
Proof.
  intros Hrec Hcol.
  assert (Hc : id_column df = Some c).
  { unfold id_column. by destruct Hcol as [-> | [-> ->]]. }
  destruct (recommend_returned _ _ _ _ _ _ _ _ _ Hrec) as (Hn & _ & Hi).
  destruct (id_col_of_cells df) as [Hcells Hnone].
  destruct (id_col_of df) as [cname|] eqn:Hname;
    [|destruct Hnone as [Hnone _]; rewrite Hnone in Hc; done].
  rewrite Hc in Hcells. split.
  { by rewrite <- (Forall2_length _ _ _ Hi), (Forall2_length _ _ _ Hn). }
  intros k name z Hname' Hz.
  destruct (Forall2_lookup_r _ _ _ _ _ Hn Hname') as (i & Hidx & Hti).
  destruct (Forall2_lookup_r _ _ _ _ _ Hi Hz) as (i' & Hidx' & row & Hiloc & Hint).
  rewrite Hidx in Hidx'. injection Hidx' as <-.
  destruct (iloc_row_int df i row cname z Hiloc Hint) as (_ & cells & Hcs & Hzc).
  rewrite Hcells in Hcs. injection Hcs as <-. by exists i.
Qed.

Lemma recommend_ids_of_rows_witness :
  (recommend no_key "A" both_ids_df ties_sim init_state
     = (inr (["B"; "C"], [None; None], [11; 12]%Z),
        (recommend no_key "A" both_ids_df ties_sim init_state).2) ∧
   (col_movie_id both_ids_df = Some [10; 11; 12]%Z ∨
    (col_movie_id both_ids_df = None ∧ col_id both_ids_df = Some [10; 11; 12]%Z))) ∧
  length [11; 12]%Z = length ["B"; "C"] ∧
  ∀ k name z, ["B"; "C"] !! k = Some name → [11; 12]%Z !! k = Some z →
    ∃ i, col_title both_ids_df !! i = Some name ∧ [10; 11; 12]%Z !! i = Some z.
Proof.
  assert (Hrec : recommend no_key "A" both_ids_df ties_sim init_state
     = (inr (["B"; "C"], [None; None], [11; 12]%Z),
        (recommend no_key "A" both_ids_df ties_sim init_state).2)) by reflexivity.
  assert (Hcol : col_movie_id both_ids_df = Some [10; 11; 12]%Z ∨
                 (col_movie_id both_ids_df = None ∧
                  col_id both_ids_df = Some [10; 11; 12]%Z)) by (left; reflexivity).
  split; [by split|].
  exact (recommend_ids_of_rows _ _ _ _ _ _ _ _ _ _ Hrec Hcol).
Defined.

(** X5: of the matrix [recommend] reads one row and nothing else, the row
    at the index label of the first row that carries the title: two matrices
    that give the same at this index give the same outcome and the same
    state. *)
Theorem recommend_reads_one_row (env : Env) (title : string) (df : DataFrame)
    (sim sim' : list (list Q)) (st : State) (i_sel : Z) (rest : list Z) :
  title_matches df title = i_sel :: rest →
  matrix_row sim i_sel = matrix_row sim' i_sel →
  recommend env title df sim st = recommend env title df sim' st.
Proof.
  intros Hm Hrow. unfold recommend. rewrite Hm. unfold bind. by rewrite Hrow.
Qed.

Lemma recommend_reads_one_row_witness :
  (title_matches gapped_df "B" = [2%Z] ∧
   matrix_row gapped_sim 2 = matrix_row [[]; []; [2 # 10; 1 # 10; 1]%Q] 2) ∧
  recommend with_key "B" gapped_df gapped_sim init_state
  = recommend with_key "B" gapped_df [[]; []; [2 # 10; 1 # 10; 1]%Q] init_state.
Proof.
  assert (H1 : title_matches gapped_df "B" = [2%Z]) by reflexivity.
  assert (H2 : matrix_row gapped_sim 2
               = matrix_row [[]; []; [2 # 10; 1 # 10; 1]%Q] 2) by reflexivity.
  split; [by split|].
  exact (recommend_reads_one_row with_key "B" gapped_df _ _ init_state 2 [] H1 H2).
Defined.

(** X6: when the index label of the first row that carries the title is
    not a position of the matrix (it is the number of rows or more, or below
    minus that number), [recommend] raises [IndexError] before it asks
    anything of the metadata service: the state is as it was.  A catalog
    whose labels run past its number of rows meets this on its last titles. *)
Theorem recommend_missing_row (env : Env) (title : string) (df : DataFrame)
    (sim : list (list Q)) (st : State) (i_sel : Z) (rest : list Z) :
  title_matches df title = i_sel :: rest →
  (Z.of_nat (length sim) ≤ i_sel ∨ i_sel < - Z.of_nat (length sim))%Z →
  recommend env title df sim st = (inl IndexError, st).
Proof.
  intros Hm Hout. unfold recommend. rewrite Hm.
  assert (Hrow : matrix_row sim i_sel = inl IndexError).
  { unfold matrix_row, getitem.
    destruct (decide (i_sel < 0)%Z) as [Hneg | Hpos].
    - rewrite decide_True; [done | lia].
    - rewrite decide_False by lia.
      rewrite lookup_ge_None_2; [done | lia]. }
  unfold bind, lift. by rewrite Hrow.
Qed.

Lemma recommend_missing_row_witness :
  (title_matches gapped_df "C" = [3%Z] ∧
   (Z.of_nat (length gapped_sim) ≤ 3 ∨ 3 < - Z.of_nat (length gapped_sim))%Z) ∧
  recommend with_key "C" gapped_df gapped_sim init_state = (inl IndexError, init_state).
Proof.
  assert (H1 : title_matches gapped_df "C" = [3%Z]) by reflexivity.
  assert (H2 : (Z.of_nat (length gapped_sim) ≤ 3
                ∨ 3 < - Z.of_nat (length gapped_sim))%Z) by (left; simpl; lia).
  split; [by split|].
  exact (recommend_missing_row with_key "C" gapped_df gapped_sim init_state 3 [] H1 H2).
Defined.

Lemma recommend_loop_out_of_range (env : Env) (df : DataFrame)
    (id_col : option string) (idxs : list nat) :
  (id_col = None ↔ id_col_cells df id_col = None) →
  (∀ c, id_col_cells df id_col = Some c → length c = length (col_title df)) →
  Exists (λ i, length (col_title df) ≤ i) idxs →
  ∀ names posters ids st,
  ∃ st', recommend_loop env df id_col idxs (names, posters, ids) st
         = (inl IndexError, st').
Proof.
  intros Hnone Hlen. induction idxs as [|i idxs IH]; intros Hex names posters ids st.
  { by apply Exists_nil in Hex. }
  rewrite recommend_loop_cons. unfold iloc.
  destruct (col_title df !! i) as [t|] eqn:Ht; [|by eexists].
  assert (Hi : i < length (col_title df)) by by eapply lookup_lt_Some.
  apply Exists_cons in Hex as [Hbad | Hex]; [lia|].
  destruct id_col as [c|]; [|by apply IH].
  destruct (id_col_cells df (Some c)) as [cells|] eqn:Hcells;
    [|destruct Hnone as [_ Hn]; by specialize (Hn eq_refl)].
  assert (∃ z, cells !! i = Some z) as [z Hz].
  { apply lookup_lt_is_Some_2. by rewrite (Hlen cells). }
  unfold row_int. simpl.
  assert (Hcell : (if String.eqb c "movie_id"
                   then col_movie_id df ≫= (λ c, c !! i)
                   else col_id df ≫= (λ c, c !! i)) = Some z).
  { simpl in Hcells. destruct (String.eqb c "movie_id"); rewrite Hcells; done. }
  rewrite Hcell.
  destruct (fetch_poster_returns env z st) as (v & st1 & -> & _).
  by apply IH.
Qed.

(** X7: when the row [recommend] reads from the matrix is longer than the
    catalog and an index past the catalog ranks among the first [TOP_K],
    [recommend] raises [IndexError]. *)
Theorem recommend_row_too_long (env : Env) (title : string) (df : DataFrame)
    (sim : list (list Q)) (st : State) (i_sel : Z) (rest : list Z)
    (row : list Q) (j : nat) :
  frame_ok df →
  title_matches df title = i_sel :: rest →
  matrix_row sim i_sel = inr row →
  j ∈ top_idxs i_sel row → length (col_title df) ≤ j →
  ∃ st', recommend env title df sim st = (inl IndexError, st').
Proof.
  intros Hok Hm Hrow Hj Hbig.
  unfold recommend. rewrite Hm. unfold bind, lift. rewrite Hrow. simpl.
  destruct (id_col_of_cells df) as [Hcells Hnone].
  apply recommend_loop_out_of_range.
  - by rewrite Hcells.
  - rewrite Hcells. intros c. by apply frame_ok_id_column.
  - apply Exists_exists. by exists j.
Qed.

Lemma recommend_row_too_long_witness :
  (frame_ok ties_df ∧ title_matches ties_df "A" = [0%Z] ∧
   matrix_row wide_sim 0 = inr [1; 1 # 2; 1 # 2; 3 # 4]%Q ∧
   3 ∈ top_idxs 0 [1; 1 # 2; 1 # 2; 3 # 4]%Q ∧ length (col_title ties_df) ≤ 3) ∧
  ∃ st', recommend with_key "A" ties_df wide_sim init_state = (inl IndexError, st').
Proof.
  assert (H1 : frame_ok ties_df) by apply ties_ok.
  assert (H2 : title_matches ties_df "A" = [0%Z]) by reflexivity.
  assert (H3 : matrix_row wide_sim 0 = inr [1; 1 # 2; 1 # 2; 3 # 4]%Q) by reflexivity.
  assert (H5 : 3 ∈ top_idxs 0 [1; 1 # 2; 1 # 2; 3 # 4]%Q).
  { change (top_idxs 0 [1; 1 # 2; 1 # 2; 3 # 4]%Q) with [3; 1; 2].
    apply elem_of_cons. by left. }
  assert (H6 : length (col_title ties_df) ≤ 3) by (simpl; lia).
  split; [by split_and!|].
  exact (recommend_row_too_long with_key "A" ties_df wide_sim init_state 0 []
           [1; 1 # 2; 1 # 2; 3 # 4]%Q 3 H1 H2 H3 H5 H6).
Defined.

Lemma fetch_poster_other (env : Env) (movie_id other : Z) (st : State) :
  other ≠ movie_id →
  poster_cache (fetch_poster env movie_id st).2 !! other = poster_cache st !! other.
Proof.
  intros Hne. unfold fetch_poster.
  destruct (cache_get _ _ _ _); simpl; [done|]. by rewrite lookup_insert_ne.
Qed.

Lemma recommend_loop_footprint (env : Env) (df : DataFrame) (id_col : option string)
    (idxs : list nat) :
  ∀ names0 posters0 ids0 st names posters ids st',
    recommend_loop env df id_col idxs (names0, posters0, ids0) st
      = (inr (names, posters, ids), st') →
    ∃ new, ids = ids0 ++ new ∧
           ∀ other, other ∉ new → poster_cache st' !! other = poster_cache st !! other.
Proof.
  induction idxs as [|i idxs IH]; intros names0 posters0 ids0 st names posters ids st'.
  { simpl. unfold ret. intros [= <- <- <- <-]. exists []. by rewrite app_nil_r. }
  rewrite recommend_loop_cons. destruct (iloc df i) as [e | row]; [done|].
  destruct id_col as [c|].
  - destruct (row_int row c) as [e | z]; [done|].
    pose proof (fetch_poster_other env z) as Hother.
    destruct (fetch_poster_returns env z st) as (v & st1 & Heq & _).
    rewrite Heq. intros Hloop.
    destruct (IH _ _ _ _ _ _ _ _ Hloop) as (new & -> & Hnew).
    exists (z :: new). rewrite <- app_assoc. split; [done|].
    intros other Hnot. apply not_elem_of_cons in Hnot as [Hne Hnot].
    rewrite (Hnew other Hnot). specialize (Hother other st Hne).
    by rewrite Heq in Hother.
  - intros Hloop. destruct (IH _ _ _ _ _ _ _ _ Hloop) as (new & -> & Hnew).
    exists ((-1)%Z :: new). rewrite <- app_assoc. split; [done|].
    intros other Hnot. apply not_elem_of_cons in Hnot as [_ Hnot]. by apply Hnew.
Qed.

(** X8: of the state of the process, a call of [recommend] that returns
    changes at most the poster cache, and there only the entries of the
    identifiers it returns; the clock and the genre cache are as before. *)
Theorem recommend_footprint (env : Env) (title : string) (df : DataFrame)
    (sim : list (list Q)) (st st' : State) (names : list string)
    (posters : list (option string)) (ids : list Z) :
  recommend env title df sim st = (inr (names, posters, ids), st') →
  (∀ other, other ∉ ids → poster_cache st' !! other = poster_cache st !! other) ∧
  genre_cache st' = genre_cache st ∧
  now st' = now st.
Proof.
  intros Hrec. split.
  - unfold recommend in Hrec.
    destruct (title_matches df title) as [|i_sel rest].
    { unfold ret in Hrec. by injection Hrec as <- <- <- <-. }
    unfold bind, lift in Hrec.
    destruct (matrix_row sim i_sel) as [e | row]; simpl in Hrec; [done|].
    destruct (recommend_loop_footprint _ _ _ _ _ _ _ _ _ _ _ _ Hrec) as (new & -> & Hnew).
    exact Hnew.
  - pose proof (recommend_preserves
                  (λ s, genre_cache s = genre_cache st ∧ now s = now st)
                  env title df sim st) as Hpre.
    rewrite Hrec in Hpre. apply Hpre; [|done].
    intros id s [Hg Hn].
    destruct (fetch_poster_returns env id s) as (v & s' & -> & Hn' & Hg').
    simpl. by rewrite Hn', Hg'.
Qed.

Lemma recommend_footprint_witness :
  recommend with_key "A" ties_df ties_sim init_state
    = (inr (["B"; "C"],
            [Some "https://image.tmdb.org/t/p/w500/a.jpg";
             Some "https://image.tmdb.org/t/p/w500/a.jpg"], [11; 12]%Z),
       (recommend with_key "A" ties_df ties_sim init_state).2) ∧
  (∀ other, other ∉ [11; 12]%Z →
     poster_cache (recommend with_key "A" ties_df ties_sim init_state).2 !! other
     = poster_cache init_state !! other) ∧
  genre_cache (recommend with_key "A" ties_df ties_sim init_state).2
    = genre_cache init_state ∧
  now (recommend with_key "A" ties_df ties_sim init_state).2 = now init_state.
Proof.
  assert (Hrec : recommend with_key "A" ties_df ties_sim init_state
    = (inr (["B"; "C"],
            [Some "https://image.tmdb.org/t/p/w500/a.jpg";
             Some "https://image.tmdb.org/t/p/w500/a.jpg"], [11; 12]%Z),
       (recommend with_key "A" ties_df ties_sim init_state).2)) by reflexivity.
  split; [exact Hrec|].
  exact (recommend_footprint _ _ _ _ _ _ _ _ _ Hrec).
Defined.

Lemma fetch_poster_body_from (env : Env) (T t : nat) (movie_id : Z) :
  t ≤ T → poster_from env T movie_id (fetch_poster_body env t movie_id).
Proof.
  intros Ht url. unfold fetch_poster_body.
  destruct (credential env) as [key|]; [|done].
  destruct (movie_details (tmdb env) t key movie_id) as [|[p|]] eqn:Hd; try done.
  destruct (truthy p) eqn:Hp; [|done]. intros [= <-].
  exists t, key, p. split_and!; try done. intros ->. discriminate Hp.
Qed.

Lemma fetch_poster_now (env : Env) (movie_id : Z) (st : State) :
  now (fetch_poster env movie_id st).2 = now st.
Proof.
  unfold fetch_poster. by destruct (cache_get _ _ _ _).
Qed.

Lemma recommend_loop_posters_from (env : Env) (df : DataFrame) (id_col : option string)
    (idxs : list nat) :
  ∀ names0 posters0 ids0 st names posters ids st',
    caches_sound env st →
    Forall2 (poster_from env (now st)) ids0 posters0 →
    recommend_loop env df id_col idxs (names0, posters0, ids0) st
      = (inr (names, posters, ids), st') →
    Forall2 (poster_from env (now st)) ids posters.
Proof.
  induction idxs as [|i idxs IH];
    intros names0 posters0 ids0 st names posters ids st' Hst Hp0.
  { simpl. unfold ret. by intros [= <- <- <- <-]. }
  rewrite recommend_loop_cons. destruct (iloc df i) as [e | row]; [done|].
  destruct id_col as [c|].
  - destruct (row_int row c) as [e | z]; [done|].
    destruct (fetch_poster_sound env z st Hst) as (Heq & Ht & Hst1).
    rewrite Heq. rewrite <- (fetch_poster_now env z st). apply IH; [done|].
    rewrite fetch_poster_now.
    apply Forall2_app; [done|]. constructor; [|done].
    by apply fetch_poster_body_from.
  - apply IH; [done|]. apply Forall2_app; [done|]. by repeat constructor.
Qed.

(** X9: at any point of the life of the process, a poster [recommend]
    returns is a URL only when the process has a credential and the service
    answered, now or earlier, a request for the identifier returned at the
    same place with a path that is not empty; the URL is then the image base
    followed by this path.  A failed request, a missing or empty path and a
    missing credential give no URL. *)
Theorem recommend_posters_from (env : Env) (history : list action) (title : string)
    (df : DataFrame) (sim : list (list Q)) (st' : State) (names : list string)
    (posters : list (option string)) (ids : list Z) :
  recommend env title df sim (run env history) = (inr (names, posters, ids), st') →
  Forall2 (poster_from env (now (run env history))) ids posters.
Proof.
  unfold recommend. destruct (title_matches df title) as [|i_sel rest].
  { unfold ret. intros [= <- <- <- <-]. constructor. }
  unfold bind, lift. destruct (matrix_row sim i_sel) as [e | row]; simpl; [done|].
  apply recommend_loop_posters_from; [apply run_sound | constructor].
Qed.

Lemma recommend_posters_from_witness :
  recommend with_key "A" ties_df ties_sim (run with_key [Tick 5; ShowGenre 28])
    = (inr (["B"; "C"],
            [Some "https://image.tmdb.org/t/p/w500/a.jpg";
             Some "https://image.tmdb.org/t/p/w500/a.jpg"], [11; 12]%Z),
       (recommend with_key "A" ties_df ties_sim (run with_key [Tick 5; ShowGenre 28])).2) ∧
  Forall2 (poster_from with_key (now (run with_key [Tick 5; ShowGenre 28])))
    [11; 12]%Z
    [Some "https://image.tmdb.org/t/p/w500/a.jpg";
     Some "https://image.tmdb.org/t/p/w500/a.jpg"].
Proof.
  assert (Hrec : recommend with_key "A" ties_df ties_sim (run with_key [Tick 5; ShowGenre 28])
    = (inr (["B"; "C"],
            [Some "https://image.tmdb.org/t/p/w500/a.jpg";
             Some "https://image.tmdb.org/t/p/w500/a.jpg"], [11; 12]%Z),
       (recommend with_key "A" ties_df ties_sim (run with_key [Tick 5; ShowGenre 28])).2))
    by reflexivity.
  split; [exact Hrec|].
  exact (recommend_posters_from _ _ _ _ _ _ _ _ _ Hrec).
Defined.

Lemma recommend_loop_bare (env : Env) (df : DataFrame) (idxs : list nat) :
  ∀ names0 posters0 ids0 st names posters ids st',
    recommend_loop env df None idxs (names0, posters0, ids0) st
      = (inr (names, posters, ids), st') →
    st' = st ∧
    ∃ n, names = names0 ++ n ∧
         posters = posters0 ++ replicate (length n) None ∧
         ids = ids0 ++ replicate (length n) (-1)%Z.
Proof.
  induction idxs as [|i idxs IH]; intros names0 posters0 ids0 st names posters ids st'.
  { simpl. unfold ret. intros [= <- <- <- <-]. split; [done|].
    exists []. by rewrite !app_nil_r. }
  rewrite recommend_loop_cons. destruct (iloc df i) as [e | row]; [done|].
  intros Hloop. destruct (IH _ _ _ _ _ _ _ _ Hloop) as (-> & n & -> & -> & ->).
  split; [done|]. exists (row_title row :: n).
  by rewrite <- !app_assoc.
Qed.

(** X27: when the catalog has neither a "movie_id" nor an "id" column,
    whatever its index labels and the matrix are, a call of [recommend] that
    returns gives [-1] as every identifier and no poster, as many of each as
    names, and leaves the state as it was: the metadata service is not
    asked. *)
Theorem recommend_bare_returned (env : Env) (title : string) (df : DataFrame)
    (sim : list (list Q)) (st st' : State) (names : list string)
    (posters : list (option string)) (ids : list Z) :
  col_movie_id df = None → col_id df = None →
  recommend env title df sim st = (inr (names, posters, ids), st') →
  names_of df (accepted title df sim) names ∧
  posters = replicate (length names) None ∧
  ids = replicate (length names) (-1)%Z ∧
  st' = st.
Proof.
  intros Hm Hi Hrec.
  split; [by destruct (recommend_returned _ _ _ _ _ _ _ _ _ Hrec)|].
  revert Hrec. unfold recommend.
  destruct (title_matches df title) as [|i_sel rest].
  { unfold ret. by intros [= <- <- <- <-]. }
  unfold bind, lift. destruct (matrix_row sim i_sel) as [e | row]; simpl; [done|].
  assert (Hcol : id_col_of df = None).
  { unfold id_col_of, columns. rewrite Hm, Hi. reflexivity. }
  rewrite Hcol. intros Hloop.
  by destruct (recommend_loop_bare _ _ _ _ _ _ _ _ _ _ _ Hloop) as (-> & n & -> & -> & ->).
Qed.

Lemma recommend_bare_returned_witness :
  (col_movie_id gapped_bare_df = None ∧ col_id gapped_bare_df = None ∧
   recommend with_key "B" gapped_bare_df gapped_sim init_state
     = (inr (["A"; "B"], [None; None], [(-1)%Z; (-1)%Z]), init_state)) ∧
  names_of gapped_bare_df (accepted "B" gapped_bare_df gapped_sim) ["A"; "B"] ∧
  [None; None] = replicate (length ["A"; "B"]) (@None string) ∧
  [(-1)%Z; (-1)%Z] = replicate (length ["A"; "B"]) (-1)%Z ∧
  init_state = init_state.
Proof.
  assert (H1 : col_movie_id gapped_bare_df = None) by reflexivity.
  assert (H2 : col_id gapped_bare_df = None) by reflexivity.
  assert (H3 : recommend with_key "B" gapped_bare_df gapped_sim init_state
     = (inr (["A"; "B"], [None; None], [(-1)%Z; (-1)%Z]), init_state)) by reflexivity.
  split; [by split_and!|].
  exact (recommend_bare_returned _ _ _ _ _ _ _ _ _ H1 H2 H3).
Defined.

(** ** The caches *)

(** X10: a poster looked up when the cache has no live entry is served
    from the cache for the [POSTER_TTL] seconds that follow, whatever the
    credential and the service have become, without a change of state; the
    answer "no poster" of a failed request is kept like any other.  From
    [POSTER_TTL] seconds on the service is asked again. *)
Theorem fetch_poster_ttl (env env' : Env) (movie_id : Z) (st : State) (d : nat) :
  cache_get POSTER_TTL (now st) (poster_cache st) movie_id = None →
  let v := fetch_poster_body env (now st) movie_id in
  let st1 := (fetch_poster env movie_id st).2 in
  fetch_poster env movie_id st = (inr v, st1) ∧
  (d < POSTER_TTL →
   fetch_poster env' movie_id (tick d st1) = (inr v, tick d st1)) ∧
  (POSTER_TTL ≤ d →
   (fetch_poster env' movie_id (tick d st1)).1
   = inr (fetch_poster_body env' (now st + d) movie_id)).
Proof.
  intros Hmiss v st1.
  assert (Heq : fetch_poster env movie_id st
                = (inr v, mkState (now st) (<[movie_id := (now st, v)]> (poster_cache st))
                                  (genre_cache st))).
  { unfold fetch_poster. by rewrite Hmiss. }
  unfold st1. rewrite Heq. simpl. split; [done|].
  unfold fetch_poster, cache_get, tick. simpl.
  rewrite lookup_insert_eq. split; intros Hd.
  - rewrite decide_True; [done | lia].
  - rewrite decide_False; [done | lia].
Qed.

Lemma fetch_poster_ttl_witness :
  cache_get POSTER_TTL (now init_state) (poster_cache init_state) 550%Z = None ∧
  let v := fetch_poster_body no_key (now init_state) 550 in
  let st1 := (fetch_poster no_key 550 init_state).2 in
  fetch_poster no_key 550 init_state = (inr v, st1) ∧
  (60 < POSTER_TTL →
   fetch_poster with_key 550 (tick 60 st1) = (inr v, tick 60 st1)) ∧
  (POSTER_TTL ≤ 60 →
   (fetch_poster with_key 550 (tick 60 st1)).1
   = inr (fetch_poster_body with_key (now init_state + 60) 550)).
Proof.
  assert (Hmiss : cache_get POSTER_TTL (now init_state) (poster_cache init_state) 550%Z
                  = None) by reflexivity.
  split; [exact Hmiss|].
  exact (fetch_poster_ttl no_key with_key 550 init_state 60 Hmiss).
Defined.

(** X11: a genre page asked for when the cache has no live entry is served
    from the cache for the [GENRE_TTL] seconds that follow, the empty page of
    a failed request like any other, and asked of the service again from
    then on. *)
Theorem fetch_by_genre_ttl (env env' : Env) (genre_id page : Z) (st : State) (d : nat) :
  cache_get GENRE_TTL (now st) (genre_cache st) (genre_id, page) = None →
  let v := fetch_by_genre_body env (now st) genre_id page in
  let st1 := (fetch_by_genre env genre_id page st).2 in
  fetch_by_genre env genre_id page st = (inr v, st1) ∧
  (d < GENRE_TTL →
   fetch_by_genre env' genre_id page (tick d st1) = (inr v, tick d st1)) ∧
  (GENRE_TTL ≤ d →
   (fetch_by_genre env' genre_id page (tick d st1)).1
   = inr (fetch_by_genre_body env' (now st + d) genre_id page)).
Proof.
  intros Hmiss v st1.
  assert (Heq : fetch_by_genre env genre_id page st
                = (inr v, mkState (now st) (poster_cache st)
                                  (<[(genre_id, page) := (now st, v)]> (genre_cache st)))).
  { unfold fetch_by_genre. by rewrite Hmiss. }
  unfold st1. rewrite Heq. simpl. split; [done|].
  unfold fetch_by_genre, cache_get, tick. simpl.
  rewrite lookup_insert_eq. split; intros Hd.
  - rewrite decide_True; [done | lia].
  - rewrite decide_False; [done | lia].
Qed.

Lemma fetch_by_genre_ttl_witness :
  cache_get GENRE_TTL (now init_state) (genre_cache init_state) (28%Z, 1%Z) = None ∧
  let v := fetch_by_genre_body no_key (now init_state) 28 1 in
  let st1 := (fetch_by_genre no_key 28 1 init_state).2 in
  fetch_by_genre no_key 28 1 init_state = (inr v, st1) ∧
  (60 < GENRE_TTL →
   fetch_by_genre with_key 28 1 (tick 60 st1) = (inr v, tick 60 st1)) ∧
  (GENRE_TTL ≤ 60 →
   (fetch_by_genre with_key 28 1 (tick 60 st1)).1
   = inr (fetch_by_genre_body with_key (now init_state + 60) 28 1)).
Proof.
  assert (Hmiss : cache_get GENRE_TTL (now init_state) (genre_cache init_state)
                            (28%Z, 1%Z) = None) by reflexivity.
  split; [exact Hmiss|].
  exact (fetch_by_genre_ttl no_key with_key 28 1 init_state 60 Hmiss).
Defined.

(** ** The genre browser *)

(** X13: when the body of the service has [results] set to [null],
    [fetch_by_genre] returns [None] and not the empty list; the handler takes
    it for an empty page, and with both pages so it shows the notice. *)
Theorem fetch_by_genre_null_results (env : Env) (key : string) (gid : Z) (st : State) :
  credential env = Some key →
  discover_movie (tmdb env) (now st) key gid 1 = Json JsonNull →
  discover_movie (tmdb env) (now st) key gid 2 = Json JsonNull →
  cache_get GENRE_TTL (now st) (genre_cache st) (gid, 1%Z) = None →
  cache_get GENRE_TTL (now st) (genre_cache st) (gid, 2%Z) = None →
  (fetch_by_genre env gid 1 st).1 = inr None ∧
  (show_genre env gid st).1 = inr (Warning GENRE_NOTICE).
Proof.
  intros Hcred H1 H2 Hm1 Hm2.
  assert (Hb1 : fetch_by_genre_body env (now st) gid 1 = None).
  { unfold fetch_by_genre_body. by rewrite Hcred, H1. }
  assert (Hb2 : fetch_by_genre_body env (now st) gid 2 = None).
  { unfold fetch_by_genre_body. by rewrite Hcred, H2. }
  assert (Hf1 : fetch_by_genre env gid 1 st
                = (inr None, mkState (now st) (poster_cache st)
                                     (<[(gid, 1%Z) := (now st, None)]> (genre_cache st)))).
  { unfold fetch_by_genre. by rewrite Hm1, Hb1. }
  split; [by rewrite Hf1|].
  unfold show_genre, bind. rewrite Hf1.
  unfold fetch_by_genre, cache_get in *. simpl.
  rewrite lookup_insert_ne by (intros [=]).
  destruct (genre_cache st !! (gid, 2%Z)) as [[t v]|].
  - case_decide; [done|]. by rewrite Hb2.
  - by rewrite Hb2.
Qed.

Lemma fetch_by_genre_null_results_witness :
  (credential null_env = Some "secret" ∧
   discover_movie (tmdb null_env) (now init_state) "secret" 28 1 = Json JsonNull ∧
   discover_movie (tmdb null_env) (now init_state) "secret" 28 2 = Json JsonNull ∧
   cache_get GENRE_TTL (now init_state) (genre_cache init_state) (28%Z, 1%Z) = None ∧
   cache_get GENRE_TTL (now init_state) (genre_cache init_state) (28%Z, 2%Z) = None) ∧
  (fetch_by_genre null_env 28 1 init_state).1 = inr None ∧
  (show_genre null_env 28 init_state).1 = inr (Warning GENRE_NOTICE).
Proof.
  split; [by split_and!|].
  by apply (fetch_by_genre_null_results null_env "secret" 28 init_state).
Defined.

Lemma fetch_by_genre_entry (env : Env) (genre_id page : Z) (st : State) :
  ∃ v st1, fetch_by_genre env genre_id page st = (inr v, st1) ∧
           now st1 = now st ∧
           genre_cache st1 !! (genre_id, page) = Some (page_time st genre_id page, v) ∧
           ∀ k, k ≠ (genre_id, page) → genre_cache st1 !! k = genre_cache st !! k.
Proof.
  unfold fetch_by_genre, page_time, cache_get.
  destruct (genre_cache st !! (genre_id, page)) as [[t v]|] eqn:Hl.
  - case_decide.
    + by exists v, st.
    + eexists _, _. split; [done|]. simpl. split; [done|].
      rewrite lookup_insert_eq. split; [done|].
      intros k Hk. by rewrite lookup_insert_ne.
  - eexists _, _. split; [done|]. simpl. split; [done|].
    rewrite lookup_insert_eq. split; [done|].
    intros k Hk. by rewrite lookup_insert_ne.
Qed.

Lemma fetch_by_genre_hit (env : Env) (genre_id page : Z) (st : State)
    (v : option (list MovieDict)) :
  cache_get GENRE_TTL (now st) (genre_cache st) (genre_id, page) = Some v →
  fetch_by_genre env genre_id page st = (inr v, st).
Proof. intros Hget. unfold fetch_by_genre. by rewrite Hget. Qed.

(** X14: a second click on "Show Genre", [d] seconds after a first one and
    before the answer the first one had for either page is [GENRE_TTL]
    seconds old, shows what the first one showed and changes nothing,
    whatever the service would answer by then: both pages come from the
    cache.  After a first click that found no live entry this is any [d]
    below [GENRE_TTL]. *)
Theorem show_genre_again (env env' : Env) (gid : Z) (st : State) (d : nat) :
  now st + d < page_time st gid 1 + GENRE_TTL →
  now st + d < page_time st gid 2 + GENRE_TTL →
  show_genre env' gid (tick d (show_genre env gid st).2)
  = ((show_genre env gid st).1, tick d (show_genre env gid st).2).
Proof.
  intros Hd1 Hd2.
  assert (Hfirst : ∃ v1 v2 st2,
            show_genre env gid st
            = (match or_nil v1 ++ or_nil v2 with
               | [] => inr (Warning GENRE_NOTICE)
               | _ => inr (Cards (map card_of (take TOP_K (or_nil v1 ++ or_nil v2))))
               end, st2) ∧
            now st2 = now st ∧
            genre_cache st2 !! (gid, 1%Z) = Some (page_time st gid 1, v1) ∧
            genre_cache st2 !! (gid, 2%Z) = Some (page_time st gid 2, v2)).
  { destruct (fetch_by_genre_entry env gid 1 st) as (v1 & st1 & Hf1 & Hn1 & He1 & Hk1).
    destruct (fetch_by_genre_entry env gid 2 st1) as (v2 & st2 & Hf2 & Hn2 & He2 & Hk2).
    exists v1, v2, st2. split_and!.
    - unfold show_genre, bind. rewrite Hf1, Hf2.
      by destruct (or_nil v1 ++ or_nil v2).
    - by rewrite Hn2.
    - rewrite Hk2 by (intros [=]). done.
    - rewrite He2. do 2 f_equal. unfold page_time.
      rewrite Hk1 by (intros [=]). by rewrite Hn1. }
  destruct Hfirst as (v1 & v2 & st2 & Hshow & Hn & He1 & He2).
  rewrite Hshow. simpl.
  assert (Hget1 : cache_get GENRE_TTL (now (tick d st2)) (genre_cache (tick d st2))
                            (gid, 1%Z) = Some v1).
  { unfold cache_get. simpl. rewrite He1, Hn. by rewrite decide_True. }
  assert (Hget2 : cache_get GENRE_TTL (now (tick d st2)) (genre_cache (tick d st2))
                            (gid, 2%Z) = Some v2).
  { unfold cache_get. simpl. rewrite He2, Hn. by rewrite decide_True. }
  unfold show_genre, bind.
  rewrite (fetch_by_genre_hit env' gid 1 _ v1 Hget1).
  rewrite (fetch_by_genre_hit env' gid 2 _ v2 Hget2).
  by destruct (or_nil v1 ++ or_nil v2).
Qed.

Lemma show_genre_again_witness :
  (now init_state + 3600 < page_time init_state 28 1 + GENRE_TTL ∧
   now init_state + 3600 < page_time init_state 28 2 + GENRE_TTL) ∧
  show_genre no_key 28 (tick 3600 (show_genre with_key 28 init_state).2)
  = ((show_genre with_key 28 init_state).1,
     tick 3600 (show_genre with_key 28 init_state).2).
Proof.
  assert (H1 : now init_state + 3600 < page_time init_state 28 1 + GENRE_TTL).
  { change (page_time init_state 28 1) with 0. change (now init_state) with 0.
    unfold GENRE_TTL. lia. }
  assert (H2 : now init_state + 3600 < page_time init_state 28 2 + GENRE_TTL).
  { change (page_time init_state 28 2) with 0. change (now init_state) with 0.
    unfold GENRE_TTL. lia. }
  split; [by split|].
  exact (show_genre_again with_key no_key 28 init_state 3600 H1 H2).
Defined.

(** X15: when the handler shows cards, there are between one and [TOP_K]
    of them: the page is never asked for zero columns. *)
Theorem show_genre_card_count (env : Env) (gid : Z) (st st' : State)
    (cards : list Card) :
  show_genre env gid st = (inr (Cards cards), st') →
  1 ≤ length cards ∧ length cards ≤ TOP_K.
Proof.
  unfold show_genre, bind.
  destruct (fetch_by_genre_returns env gid 1 st) as (v1 & st1 & -> & _).
  destruct (fetch_by_genre_returns env gid 2 st1) as (v2 & st2 & -> & _).
  destruct (or_nil v1 ++ or_nil v2) as [|m results]; [done|].
  unfold ret. intros [= <- <-].
  simpl. change (map card_of (take 4 results)) with (card_of <$> take 4 results).
  rewrite length_fmap, length_take. unfold TOP_K. lia.
Qed.

Lemma show_genre_card_count_witness :
  show_genre with_key 28 init_state
    = (inr (Cards [mkCard (Some 29%Z) "T" None (Some "https://www.themoviedb.org/movie/29");
                   mkCard (Some 30%Z) "T" None (Some "https://www.themoviedb.org/movie/30")]),
       (show_genre with_key 28 init_state).2) ∧
  1 ≤ length [mkCard (Some 29%Z) "T" None (Some "https://www.themoviedb.org/movie/29");
              mkCard (Some 30%Z) "T" None (Some "https://www.themoviedb.org/movie/30")] ∧
  length [mkCard (Some 29%Z) "T" None (Some "https://www.themoviedb.org/movie/29");
          mkCard (Some 30%Z) "T" None (Some "https://www.themoviedb.org/movie/30")] ≤ TOP_K.
Proof.
  assert (Hshow : show_genre with_key 28 init_state
    = (inr (Cards [mkCard (Some 29%Z) "T" None (Some "https://www.themoviedb.org/movie/29");
                   mkCard (Some 30%Z) "T" None (Some "https://www.themoviedb.org/movie/30")]),
       (show_genre with_key 28 init_state).2)) by reflexivity.
  split; [exact Hshow|].
  exact (show_genre_card_count _ _ _ _ _ Hshow).
Defined.



(** ** The "Recommend" handler *)

Lemma recommendation_cards_length (names : list string)
    (posters : list (option string)) (ids : list Z) :
  length posters = length names → length ids = length names →
  length (recommendation_cards names posters ids) = length names.
Proof.
  intros Hp Hi. unfold recommendation_cards.
  rewrite length_zip_with, length_zip. lia.
Qed.

(** X17: for a movie of a catalog of at least two whose index labels are
    the row positions, aligned with its matrix, the handler shows one card
    for each recommendation, in order, none lost in the zip:
    [min TOP_K (N - 1)] cards, at least one. *)
Theorem on_recommend_cards (env : Env) (selected : string) (df : DataFrame)
    (sim : list (list Q)) (st : State) :
  frame_ok df → default_index df → aligned df sim → selected ∈ col_title df →
  2 ≤ length (col_title df) →
  ∃ names posters ids st',
    recommend env selected df sim st = (inr (names, posters, ids), st') ∧
    on_recommend env selected df sim st
      = (inr (Cards (recommendation_cards names posters ids)), st') ∧
    length (recommendation_cards names posters ids)
      = TOP_K `min` (length (col_title df) - 1) ∧
    1 ≤ length (recommendation_cards names posters ids).
Proof.
  intros Hok Hidx Hal Hin HN.
  destruct (recommend_spec env selected df sim st Hok Hidx Hal Hin)
    as (i_sel & row & names & posters & ids & st' & Ht & _ & Hrow & Hlen & Hrec
        & Hn & Hp & Hi & _).
  assert (Hnames : length names = TOP_K `min` (length (col_title df) - 1)).
  { rewrite <- (Forall2_length _ _ _ Hn), top_idxs_length, Hlen; [done|].
    rewrite Hlen. by eapply lookup_lt_Some. }
  assert (Hcards : length (recommendation_cards names posters ids) = length names).
  { apply recommendation_cards_length.
    - by rewrite Hp, (Forall2_length _ _ _ Hn).
    - by rewrite <- (Forall2_length _ _ _ Hi), (Forall2_length _ _ _ Hn). }
  exists names, posters, ids, st'. split_and!; [done | | by rewrite Hcards |].
  - unfold on_recommend, bind. rewrite Hrec.
    destruct names as [|name names]; [|done].
    cbn [length] in Hnames. unfold TOP_K in Hnames. lia.
  - rewrite Hcards, Hnames. unfold TOP_K. lia.
Qed.

Lemma on_recommend_cards_witness :
  (frame_ok ties_df ∧ default_index ties_df ∧ aligned ties_df ties_sim ∧
   "A" ∈ col_title ties_df ∧ 2 ≤ length (col_title ties_df)) ∧
  ∃ names posters ids st',
    recommend with_key "A" ties_df ties_sim init_state = (inr (names, posters, ids), st') ∧
    on_recommend with_key "A" ties_df ties_sim init_state
      = (inr (Cards (recommendation_cards names posters ids)), st') ∧
    length (recommendation_cards names posters ids)
      = TOP_K `min` (length (col_title ties_df) - 1) ∧
    1 ≤ length (recommendation_cards names posters ids).
Proof.
  assert (HN : 2 ≤ length (col_title ties_df)) by (simpl; lia).
  split; [split_and!; try apply ties_ok; exact HN|].
  apply on_recommend_cards; [apply ties_ok .. | exact HN].
Defined.

(** X18: the handler shows the notice "No recommendations found.", and no
    card, for a title the catalog does not have, whatever the catalog and the
    matrix are, and for the only movie of a one-movie catalog whose row has
    the label 0 and whose matrix is 1×1. *)
Theorem on_recommend_nothing (env : Env) (selected : string) (df : DataFrame)
    (sim : list (list Q)) (st : State) :
  (selected ∉ col_title df) ∨
  (frame_ok df ∧ index df = [0%Z] ∧ length (col_title df) = 1 ∧ aligned df sim) →
  (on_recommend env selected df sim st).1 = inr (Warning RECOMMEND_NOTICE).
Proof.
  intros Hcase.
  destruct (decide (selected ∈ col_title df)) as [Hin | Hnot].
  - destruct Hcase as [Hnot | (Hok & Hlab & H1 & Hal)]; [done|].
    assert (Hidx : default_index df).
    { unfold default_index. by rewrite Hlab, H1. }
    destruct (recommend_spec env selected df sim st Hok Hidx Hal Hin)
      as (i_sel & row & names & posters & ids & st' & Ht & _ & Hrow & Hlen & Hrec
          & Hn & _).
    assert (Hnames : length names = 0).
    { rewrite <- (Forall2_length _ _ _ Hn), top_idxs_length, Hlen, H1; [done|].
      rewrite Hlen. by eapply lookup_lt_Some. }
    unfold on_recommend, bind. rewrite Hrec.
    by destruct names.
  - unfold on_recommend, bind, recommend.
    by rewrite (title_matches_absent df selected Hnot).
Qed.

Lemma on_recommend_nothing_witness :
  ((("A" : string) ∉ col_title lone_df) ∨
   (frame_ok lone_df ∧ index lone_df = [0%Z] ∧ length (col_title lone_df) = 1 ∧
    aligned lone_df lone_sim)) ∧
  (on_recommend with_key "A" lone_df lone_sim init_state).1
  = inr (Warning RECOMMEND_NOTICE).
Proof.
  assert (H1 : frame_ok lone_df).
  { split; simpl; intros c [= <-]; reflexivity. }
  assert (H2 : aligned lone_df lone_sim).
  { split; [reflexivity | repeat constructor]. }
  assert (H3 : (("A" : string) ∉ col_title lone_df) ∨
               (frame_ok lone_df ∧ index lone_df = [0%Z] ∧
                length (col_title lone_df) = 1 ∧ aligned lone_df lone_sim)).
  { right. by split_and!. }
  split; [exact H3|].
  exact (on_recommend_nothing with_key "A" lone_df lone_sim init_state H3).
Defined.

Lemma recommendation_cards_bare (names : list string) :
  recommendation_cards names (replicate (length names) None)
                       (replicate (length names) (-1)%Z)
  = map (λ name, mkCard (Some (-1)%Z) name None None) names.
Proof.
  unfold recommendation_cards.
  induction names as [|name names IH]; simpl; [done|].
  f_equal. exact IH.
Qed.

(** X19: when a catalog whose index labels are the row positions has
    neither a "movie_id" nor an "id" column, the cards of the
    recommendations carry the titles only: no link, no poster (the page puts
    the placeholder image), the identifier [-1]. *)
Theorem on_recommend_without_ids (env : Env) (selected : string) (df : DataFrame)
    (sim : list (list Q)) (st : State) :
  col_movie_id df = None → col_id df = None → default_index df →
  aligned df sim → selected ∈ col_title df → 2 ≤ length (col_title df) →
  ∃ names,
    on_recommend env selected df sim st
      = (inr (Cards (map (λ name, mkCard (Some (-1)%Z) name None None) names)), st) ∧
    length names = TOP_K `min` (length (col_title df) - 1) ∧
    Forall (λ name, name ∈ col_title df) names.
Proof.
  intros Hm Hi Hidx Hal Hin HN.
  assert (Hok : frame_ok df).
  { split; intros c; rewrite ?Hm, ?Hi; done. }
  assert (Hcol : id_column df = None).
  { unfold id_column. by rewrite Hm, Hi. }
  destruct (recommend_spec env selected df sim st Hok Hidx Hal Hin)
    as (i_sel & row & names & posters & ids & st' & Ht & _ & Hrow & Hlen & Hrec
        & Hn & _ & Hids & Hnone).
  destruct (Hnone Hcol) as [-> ->].
  rewrite Hcol in Hids. apply Forall2_id_at_None in Hids as ->.
  assert (Hnames : length names = TOP_K `min` (length (col_title df) - 1)).
  { rewrite <- (Forall2_length _ _ _ Hn), top_idxs_length, Hlen; [done|].
    rewrite Hlen. by eapply lookup_lt_Some. }
  exists names. split_and!; [|done|].
  - unfold on_recommend, bind. rewrite Hrec.
    rewrite (Forall2_length _ _ _ Hn), recommendation_cards_bare.
    destruct names as [|name names]; [|done].
    cbn [length] in Hnames. unfold TOP_K in Hnames. lia.
  - apply Forall_forall. intros name [k Hk]%list_elem_of_lookup_1.
    destruct (Forall2_lookup_r _ _ _ _ _ Hn Hk) as (i & _ & Hi').
    by eapply list_elem_of_lookup_2.
Qed.

Lemma on_recommend_without_ids_witness :
  (col_movie_id bare_df = None ∧ col_id bare_df = None ∧ default_index bare_df ∧
   aligned bare_df ties_sim ∧ "A" ∈ col_title bare_df ∧
   2 ≤ length (col_title bare_df)) ∧
  ∃ names,
    on_recommend with_key "A" bare_df ties_sim init_state
      = (inr (Cards (map (λ name, mkCard (Some (-1)%Z) name None None) names)), init_state) ∧
    length names = TOP_K `min` (length (col_title bare_df) - 1) ∧
    Forall (λ name, name ∈ col_title bare_df) names.
Proof.
  assert (H0 : default_index bare_df) by reflexivity.
  assert (H3 : aligned bare_df ties_sim).
  { split; [reflexivity | repeat constructor]. }
  assert (H4 : "A" ∈ col_title bare_df).
  { simpl. apply elem_of_cons. by left. }
  assert (H5 : 2 ≤ length (col_title bare_df)) by (simpl; lia).
  split; [by split_and!|].
  by apply on_recommend_without_ids.
Defined.

(** ** The artifacts *)

(** X20: with both artifacts in the working directory and loadable, the
    script starts with them whatever the download would do (it is not
    attempted): no file is written and the page says nothing. *)
Theorem startup_with_artifacts (host : Host) (b : Boot) (m s : string)
    (movies : DataFrame) (similarity : list (list Q)) :
  files b !! "movie_dict.pkl" = Some m →
  files b !! "similarity.pkl" = Some s →
  load_movies host m = inr movies →
  load_similarity host s = inr similarity →
  startup host b = (Continue (movies, similarity), b).
Proof.
  intros Hm Hs Hlm Hls. unfold startup, ensure_from_drive. rewrite Hm, Hs.
  unfold load_artifacts, open_and_load. by rewrite Hm, Hs, Hlm, Hls.
Qed.

Lemma startup_with_artifacts_witness :
  (files ready_boot !! "movie_dict.pkl" = Some "movies" ∧
   files ready_boot !! "similarity.pkl" = Some "similarity" ∧
   load_movies drive_down "movies" = inr ties_df ∧
   load_similarity drive_down "similarity" = inr ties_sim) ∧
  startup drive_down ready_boot = (Continue (ties_df, ties_sim), ready_boot).
Proof.
  split; [by split_and!|].
  by apply (startup_with_artifacts drive_down ready_boot "movies" "similarity").
Defined.

(** X21: on a first start with no artifact in the working directory and
    downloads that deliver, the script announces each download, stores what
    it received under the two file names and starts from it; a restart from
    there needs no download, also when the downloads would fail by then. *)
Theorem startup_downloads_once (host host' : Host) (b : Boot) (m s : string)
    (movies : DataFrame) (similarity : list (list Q)) :
  files b !! "movie_dict.pkl" = None →
  files b !! "similarity.pkl" = None →
  gdown_download host ("https://drive.google.com/uc?id=" +:+ MOVIE_DICT_FILE_ID) = Saved m →
  gdown_download host ("https://drive.google.com/uc?id=" +:+ SIMILARITY_FILE_ID) = Saved s →
  load_movies host m = inr movies →
  load_similarity host s = inr similarity →
  load_movies host' = load_movies host →
  load_similarity host' = load_similarity host →
  let b' :=
    mkBoot (<["similarity.pkl" := s]> (<["movie_dict.pkl" := m]> (files b)))
           (messages b ++ [Info "Downloading movie_dict.pkl from Google Drive…"]
                       ++ [Info "Downloading similarity.pkl from Google Drive…"]) in
  startup host b = (Continue (movies, similarity), b') ∧
  startup host' b' = (Continue (movies, similarity), b').
Proof.
  intros Hm Hs Hdm Hds Hlm Hls Hm' Hs' b'.
  assert (Hfm : files b' !! "movie_dict.pkl" = Some m).
  { simpl. rewrite lookup_insert_ne by done. by rewrite lookup_insert_eq. }
  assert (Hfs : files b' !! "similarity.pkl" = Some s).
  { simpl. by rewrite lookup_insert_eq. }
  split.
  - unfold startup, ensure_from_drive. rewrite Hm, Hdm. simpl.
    rewrite lookup_insert_ne by done. rewrite Hs, Hds. simpl.
    unfold load_artifacts, open_and_load. simpl.
    rewrite lookup_insert_ne by done. rewrite !lookup_insert_eq, Hlm, Hls.
    unfold b'. by rewrite <- app_assoc.
  - unfold startup, ensure_from_drive. rewrite Hfm, Hfs.
    unfold load_artifacts, open_and_load. by rewrite Hfm, Hfs, Hm', Hs', Hlm, Hls.
Qed.

Lemma startup_downloads_once_witness :
  (files empty_boot !! "movie_dict.pkl" = None ∧
   files empty_boot !! "similarity.pkl" = None ∧
   gdown_download drive_ok ("https://drive.google.com/uc?id=" +:+ MOVIE_DICT_FILE_ID)
     = Saved "movies" ∧
   gdown_download drive_ok ("https://drive.google.com/uc?id=" +:+ SIMILARITY_FILE_ID)
     = Saved "similarity" ∧
   load_movies drive_ok "movies" = inr ties_df ∧
   load_similarity drive_ok "similarity" = inr ties_sim ∧
   load_movies drive_down = load_movies drive_ok ∧
   load_similarity drive_down = load_similarity drive_ok) ∧
  let b' :=
    mkBoot (<["similarity.pkl" := "similarity"]>
              (<["movie_dict.pkl" := "movies"]> (files empty_boot)))
           (messages empty_boot
              ++ [Info "Downloading movie_dict.pkl from Google Drive…"]
              ++ [Info "Downloading similarity.pkl from Google Drive…"]) in
  startup drive_ok empty_boot = (Continue (ties_df, ties_sim), b') ∧
  startup drive_down b' = (Continue (ties_df, ties_sim), b').
Proof.
  split; [by split_and!|].
  by apply (startup_downloads_once drive_ok drive_down empty_boot "movies" "similarity").
Defined.

(** X22: when the script starts, both artifacts are in the working
    directory and the catalog and the matrix it goes on with are what these
    files decode to; a file that was there before the start is left as it
    was. *)
Theorem startup_serves_files (host : Host) (b b' : Boot)
    (movies : DataFrame) (similarity : list (list Q)) :
  startup host b = (Continue (movies, similarity), b') →
  (∃ m s, files b' !! "movie_dict.pkl" = Some m ∧ load_movies host m = inr movies ∧
          files b' !! "similarity.pkl" = Some s ∧
          load_similarity host s = inr similarity) ∧
  (∀ path content, files b !! path = Some content → files b' !! path = Some content).
Proof.
  assert (Hens : ∀ path id label b0 b1,
            ensure_from_drive host path id label b0 = (Continue (), b1) →
            ∀ p c, files b0 !! p = Some c → files b1 !! p = Some c).
  { intros path id label b0 b1. unfold ensure_from_drive.
    destruct (files b0 !! path) as [c0|] eqn:Hp.
    - by intros [= <-].
    - destruct (gdown_download host _); intros [= <-]; simpl; [|done].
      intros p c Hpc. rewrite lookup_insert_ne; [done|]. intros <-.
      by rewrite Hp in Hpc. }
  unfold startup.
  destruct (ensure_from_drive host "movie_dict.pkl" _ _ b) as [[[]| |] b1] eqn:E1;
    try done.
  destruct (ensure_from_drive host "similarity.pkl" _ _ b1) as [[[]| |] b2] eqn:E2;
    try done.
  unfold load_artifacts, open_and_load.
  destruct (files b2 !! "movie_dict.pkl") as [m|] eqn:Hm; [|done].
  destruct (load_movies host m) as [e | df] eqn:Hlm; [done|].
  destruct (files b2 !! "similarity.pkl") as [s|] eqn:Hs; [|done].
  destruct (load_similarity host s) as [e | sim] eqn:Hls; [done|].
  intros [= <- <- <-]. split.
  - exists m, s. by split_and!.
  - intros path content Hpath.
    by apply (Hens _ _ _ _ _ E2), (Hens _ _ _ _ _ E1).
Qed.

Lemma startup_serves_files_witness :
  startup drive_ok empty_boot
    = (Continue (ties_df, ties_sim), (startup drive_ok empty_boot).2) ∧
  (∃ m s, files (startup drive_ok empty_boot).2 !! "movie_dict.pkl" = Some m ∧
          load_movies drive_ok m = inr ties_df ∧
          files (startup drive_ok empty_boot).2 !! "similarity.pkl" = Some s ∧
          load_similarity drive_ok s = inr ties_sim) ∧
  (∀ path content, files empty_boot !! path = Some content →
                   files (startup drive_ok empty_boot).2 !! path = Some content).
Proof.
  assert (Hstart : startup drive_ok empty_boot
    = (Continue (ties_df, ties_sim), (startup drive_ok empty_boot).2)) by reflexivity.
  split; [exact Hstart|].
  exact (startup_serves_files _ _ _ _ _ Hstart).
Defined.

(** X23: when an artifact is missing and its download gives up without
    raising, the script does not go on without it and does not crash: the
    load fails on the missing file, the page shows the error and the script
    stops. *)
Theorem startup_stops_without_file (host : Host) (b : Boot) :
  files b !! "movie_dict.pkl" = None →
  gdown_download host ("https://drive.google.com/uc?id=" +:+ MOVIE_DICT_FILE_ID) = NotSaved →
  gdown_download host ("https://drive.google.com/uc?id=" +:+ SIMILARITY_FILE_ID)
    ≠ DownloadError →
  ∃ b', startup host b = (Stop, b') ∧
        last (messages b')
        = Some (Error ("Failed to load data files: "
                       +:+ "[Errno 2] No such file or directory: 'movie_dict.pkl'")) ∧
        files b' !! "movie_dict.pkl" = None.
Proof.
  intros Hm Hdm Hds.
  assert (E1 : ensure_from_drive host "movie_dict.pkl" MOVIE_DICT_FILE_ID
                                 "movie_dict.pkl" b
               = (Continue (),
                  mkBoot (files b)
                         (messages b
                            ++ [Info "Downloading movie_dict.pkl from Google Drive…"]))).
  { unfold ensure_from_drive. by rewrite Hm, Hdm. }
  set (b1 := mkBoot (files b)
                    (messages b
                       ++ [Info "Downloading movie_dict.pkl from Google Drive…"])) in *.
  assert (Hload : ∀ b2, files b2 !! "movie_dict.pkl" = None →
            ∃ b', load_artifacts host b2 = (Stop, b') ∧
                  last (messages b')
                  = Some (Error ("Failed to load data files: "
                                 +:+ "[Errno 2] No such file or directory: 'movie_dict.pkl'")) ∧
                  files b' !! "movie_dict.pkl" = None).
  { intros b2 Hb2. unfold load_artifacts, open_and_load. rewrite Hb2.
    eexists. split; [done|]. simpl. by rewrite last_snoc. }
  unfold startup. rewrite E1. unfold ensure_from_drive.
  change (files b1) with (files b).
  destruct (files b !! "similarity.pkl") as [s|] eqn:Hs.
  - by apply Hload.
  - destruct (gdown_download host
                ("https://drive.google.com/uc?id=" +:+ SIMILARITY_FILE_ID))
      as [c| |] eqn:Hd; [| |done].
    + apply Hload. simpl. by rewrite lookup_insert_ne.
    + by apply Hload.
Qed.

Lemma startup_stops_without_file_witness :
  (files empty_boot !! "movie_dict.pkl" = None ∧
   gdown_download drive_quiet ("https://drive.google.com/uc?id=" +:+ MOVIE_DICT_FILE_ID)
     = NotSaved ∧
   gdown_download drive_quiet ("https://drive.google.com/uc?id=" +:+ SIMILARITY_FILE_ID)
     ≠ DownloadError) ∧
  ∃ b', startup drive_quiet empty_boot = (Stop, b') ∧
        last (messages b')
        = Some (Error ("Failed to load data files: "
                       +:+ "[Errno 2] No such file or directory: 'movie_dict.pkl'")) ∧
        files b' !! "movie_dict.pkl" = None.
Proof.
  split; [by split_and!|].
  by apply startup_stops_without_file.
Defined.
